(** * Qwik invoicing application: the command and query layer of
      [src/routes/index.tsx] over the schema of [src/lib/db.ts].

    The development embeds the three route actions (add customer, add
    product, create invoice), the three route loaders and the two total
    computations (the server-side fold of [useCreateInvoiceAction] and the
    preview of [InvoiceCreation]) and proves the properties the
    specification states about them.

    JavaScript numbers are an interface here ([Number]): the program is
    written once against it and read at two instances, exact rational
    arithmetic ([ExactQ], floating-point tolerance aside) and IEEE 754
    binary64 ([Binary64], the arithmetic JavaScript runs). *)

From Stdlib Require Import Floats.PrimFloat Floats.FloatOps Floats.SpecFloat.
From Stdlib Require Floats.FloatAxioms.
From Stdlib Require Import ZArith QArith Qround List String Bool Lia.
From Stdlib Require Import Permutation Sorted RelationClasses.
From Stdlib Require OrdersEx.
Import ListNotations.

Set Implicit Arguments.

(** ** Numbers *)

(** What the program uses of a JavaScript number: the literals [0] and
    [100], [+], [*], [/] and (in zod's [min(0)]) [<=]; and whether it is
    NaN, which SQLite stores as NULL. *)
Class Number : Type := {
  num : Type;
  num_zero : num;
  num_hundred : num;
  num_add : num -> num -> num;
  num_mul : num -> num -> num;
  num_div : num -> num -> num;
  num_leb : num -> num -> bool;
  num_is_nan : num -> bool
}.

Declare Scope num_scope.
Delimit Scope num_scope with num.
Infix "+" := num_add : num_scope.
Infix "*" := num_mul : num_scope.
Infix "/" := num_div : num_scope.

(** Exact arithmetic on rationals. *)
Definition ExactQ : Number := {|
  num := Q;
  num_zero := 0%Q;
  num_hundred := 100%Q;
  num_add := Qplus;
  num_mul := Qmult;
  num_div := Qdiv;
  num_leb := Qle_bool;
  num_is_nan := fun _ => false
|}.

(** IEEE 754 binary64, round to nearest even: the JavaScript [number]. *)
Definition Binary64 : Number := {|
  num := PrimFloat.float;
  num_zero := PrimFloat.zero;
  num_hundred := 100%float;
  num_add := PrimFloat.add;
  num_mul := PrimFloat.mul;
  num_div := PrimFloat.div;
  num_leb := PrimFloat.leb;
  num_is_nan := PrimFloat.is_nan
|}.

(** The rational a binary64 value is; [None] for NaN and the infinities. *)
Definition exact_value (x : PrimFloat.float) : option Q :=
  match FloatOps.Prim2SF x with
  | SpecFloat.S754_zero _ => Some 0%Q
  | SpecFloat.S754_finite s m e =>
      let v := (inject_Z (Z.pos m) * Qpower 2 e)%Q in
      Some (if s then Qopp v else v)
  | _ => None
  end.

(** The number of hundredths [toFixed(2)] prints for a rational: the integer
    [n] with [n / 100] closest to it, the larger one on a tie, the sign
    treated apart. *)
Definition hundredths (v : Q) : Z :=
  if Qle_bool 0 v
  then Qfloor (v * 100 + (1 # 2))%Q
  else (- Qfloor (Qopp v * 100 + (1 # 2))%Q)%Z.

(** [Number.prototype.toFixed(2)] on a binary64 value, as the number of
    hundredths it prints; [None] stands for the texts of NaN and the
    infinities. *)
Definition toFixed2 (x : PrimFloat.float) : option Z :=
  option_map hundredths (exact_value x).

(** ** Errors and outcomes *)

(** The constraint failures the schema can raise on these inserts. *)
Inductive SqliteError : Type :=
| SQLITE_CONSTRAINT_NOTNULL
| SQLITE_CONSTRAINT_UNIQUE
| SQLITE_CONSTRAINT_FOREIGNKEY.

(** What a thrown JavaScript value is, as far as these actions go. *)
Inductive JsError : Type :=
| SqliteErr (e : SqliteError)
| SyntaxError
| TypeError.

(** How a [routeAction$] ends: [zod$] rejects the form data and the body does
    not run, or the body returns a value, or it throws and the fault leaves
    the action. *)
Inductive ActionOutcome (A : Type) : Type :=
| ValidationFailed
| Returned (a : A)
| Threw (e : JsError).

Arguments ValidationFailed {A}.
Arguments Returned {A} a.
Arguments Threw {A} e.

(** ** Data model (the interfaces of [index.tsx], the tables of [db.ts]) *)

Section Model.

Context {N : Number}.
Local Open Scope num_scope.

(** A row of [customers]; also [interface Customer]. *)
Record Customer : Type := {
  customer_id : Z;
  customer_name : string;
  customer_phone : string;
  customer_email : option string;
  customer_address : option string
}.

(** A row of [products]; also [interface Product]. *)
Record Product : Type := {
  product_id : Z;
  product_name : string;
  product_description : option string;
  product_price : num;
  product_tax : num
}.

(** [interface InvoiceItem extends Product { quantity: number }]: an item of
    the invoice in progress, as the client holds and submits it. *)
Record InvoiceItem : Type := {
  item_product : Product;
  item_quantity : num
}.

Definition item_id (item : InvoiceItem) : Z := product_id (item_product item).
Definition item_price (item : InvoiceItem) : num := product_price (item_product item).
Definition item_tax (item : InvoiceItem) : num := product_tax (item_product item).

(** ** The total computations *)

(** The fold of [useCreateInvoiceAction] (lines 52-56):
    [acc + itemTotal + taxAmount], that is [(acc + itemTotal) + taxAmount]. *)
Definition totalAmount (items : list InvoiceItem) : num :=
  fold_left
    (fun acc item =>
       let itemTotal := item_price item * item_quantity item in
       let taxAmount := itemTotal * (item_tax item / num_hundred) in
       acc + itemTotal + taxAmount)
    items num_zero.

(** The two folds of [InvoiceCreation] (lines 222-223). *)
Definition subtotal (items : list InvoiceItem) : num :=
  fold_left (fun acc item => acc + item_price item * item_quantity item)
            items num_zero.

Definition totalTax (items : list InvoiceItem) : num :=
  fold_left
    (fun acc item =>
       acc + (item_price item * item_quantity item * (item_tax item / num_hundred)))
    items num_zero.

(** The total the preview prints (line 261): [subtotal + totalTax]. *)
Definition previewTotal (items : list InvoiceItem) : num :=
  subtotal items + totalTax items.

(** ** The schema store ([db.ts]) *)

(** A row of [invoices]. *)
Record InvoiceRow : Type := {
  invoice_id : Z;
  invoice_customerId : Z;
  invoice_createdAt : string;
  invoice_totalAmount : num
}.

(** A row of [invoice_items]. *)
Record InvoiceItemRow : Type := {
  ii_id : Z;
  ii_invoiceId : Z;
  ii_productId : Z;
  ii_quantity : num;
  ii_priceAtSale : num;
  ii_taxAtSale : num
}.

(** The four tables, rows in insertion order, and for each the largest rowid
    it ever held ([sqlite_sequence], kept for [AUTOINCREMENT] keys). *)
Record Database : Type := {
  customers : list Customer;
  products : list Product;
  invoices : list InvoiceRow;
  invoice_items : list InvoiceItemRow;
  seq_customers : Z;
  seq_products : Z;
  seq_invoices : Z;
  seq_invoice_items : Z
}.

(** The store [initDb] creates when no table exists yet. *)
Definition empty_db : Database := {|
  customers := []; products := []; invoices := []; invoice_items := [];
  seq_customers := 0; seq_products := 0; seq_invoices := 0;
  seq_invoice_items := 0
|}.

(** A statement runs against the store and either throws, leaving its own
    effect undone, or returns a value and the new store. *)
Definition Sql (A : Type) : Type := Database -> SqliteError + (A * Database).

Definition ret {A : Type} (a : A) : Sql A := fun db => inr (a, db).

Definition bind {A B : Type} (m : Sql A) (k : A -> Sql B) : Sql B :=
  fun db =>
    match m db with
    | inl e => inl e
    | inr (a, db') => k a db'
    end.

Notation "x <- m ;; k" := (bind m (fun x => k))
  (at level 61, m at next level, right associativity).

(** [INTEGER PRIMARY KEY AUTOINCREMENT]: one more than the largest rowid the
    table holds or ever held. *)
Definition rowid_max (ids : list Z) : Z := fold_right Z.max 0%Z ids.

Definition next_rowid (seq : Z) (ids : list Z) : Z :=
  (Z.max seq (rowid_max ids) + 1)%Z.

(** [INSERT INTO customers (name, phone, email, address)]: [phone] is
    [UNIQUE]. The value returned is [lastInsertRowid]. *)
Definition insert_customer (name phone : string) (email address : option string)
  : Sql Z :=
  fun db =>
    if existsb (fun c => String.eqb (customer_phone c) phone) (customers db)
    then inl SQLITE_CONSTRAINT_UNIQUE
    else
      let id := next_rowid (seq_customers db) (map customer_id (customers db)) in
      inr (id,
           {| customers :=
                customers db ++
                [{| customer_id := id; customer_name := name;
                    customer_phone := phone; customer_email := email;
                    customer_address := address |}];
              products := products db;
              invoices := invoices db;
              invoice_items := invoice_items db;
              seq_customers := id;
              seq_products := seq_products db;
              seq_invoices := seq_invoices db;
              seq_invoice_items := seq_invoice_items db |}).

(** [INSERT INTO products (name, description, price, tax)]; [price] and
    [tax] are [REAL NOT NULL], and a NaN is bound as NULL. *)
Definition insert_product (name : string) (description : option string)
  (price tax : num) : Sql Z :=
  fun db =>
    if num_is_nan price || num_is_nan tax
    then inl SQLITE_CONSTRAINT_NOTNULL
    else
      let id := next_rowid (seq_products db) (map product_id (products db)) in
      inr (id,
           {| customers := customers db;
              products :=
                products db ++
                [{| product_id := id; product_name := name;
                    product_description := description;
                    product_price := price; product_tax := tax |}];
              invoices := invoices db;
              invoice_items := invoice_items db;
              seq_customers := seq_customers db;
              seq_products := id;
              seq_invoices := seq_invoices db;
              seq_invoice_items := seq_invoice_items db |}).

Definition customer_exists (db : Database) (id : Z) : bool :=
  existsb (fun c => Z.eqb (customer_id c) id) (customers db).

Definition product_exists (db : Database) (id : Z) : bool :=
  existsb (fun p => Z.eqb (product_id p) id) (products db).

Definition invoice_exists (db : Database) (id : Z) : bool :=
  existsb (fun i => Z.eqb (invoice_id i) id) (invoices db).

(** [INSERT INTO invoices (customerId, createdAt, totalAmount)]:
    [totalAmount] is [REAL NOT NULL], and
    [FOREIGN KEY (customerId) REFERENCES customers (id)] is enforced
    ([PRAGMA foreign_keys = ON]). *)
Definition insert_invoice (customerId : Z) (createdAt : string) (total : num)
  : Sql Z :=
  fun db =>
    if num_is_nan total then inl SQLITE_CONSTRAINT_NOTNULL
    else if customer_exists db customerId
    then
      let id := next_rowid (seq_invoices db) (map invoice_id (invoices db)) in
      inr (id,
           {| customers := customers db;
              products := products db;
              invoices :=
                invoices db ++
                [{| invoice_id := id; invoice_customerId := customerId;
                    invoice_createdAt := createdAt;
                    invoice_totalAmount := total |}];
              invoice_items := invoice_items db;
              seq_customers := seq_customers db;
              seq_products := seq_products db;
              seq_invoices := id;
              seq_invoice_items := seq_invoice_items db |})
    else inl SQLITE_CONSTRAINT_FOREIGNKEY.

(** [INSERT INTO invoice_items (invoiceId, productId, quantity, priceAtSale,
    taxAtSale)]: the three numbers are [NOT NULL], and both foreign keys are
    enforced. *)
Definition insert_invoice_item (invoiceId productId : Z)
  (quantity price tax : num) : Sql Z :=
  fun db =>
    if num_is_nan quantity || num_is_nan price || num_is_nan tax
    then inl SQLITE_CONSTRAINT_NOTNULL
    else if invoice_exists db invoiceId && product_exists db productId
    then
      let id :=
        next_rowid (seq_invoice_items db) (map ii_id (invoice_items db)) in
      inr (id,
           {| customers := customers db;
              products := products db;
              invoices := invoices db;
              invoice_items :=
                invoice_items db ++
                [{| ii_id := id; ii_invoiceId := invoiceId;
                    ii_productId := productId; ii_quantity := quantity;
                    ii_priceAtSale := price; ii_taxAtSale := tax |}];
              seq_customers := seq_customers db;
              seq_products := seq_products db;
              seq_invoices := seq_invoices db;
              seq_invoice_items := id |})
    else inl SQLITE_CONSTRAINT_FOREIGNKEY.

(** [db.transaction(fn)()]: commit when [fn] returns; when it throws, roll
    the store back to where it was and throw the same error again. *)
Definition transaction {A : Type} (fn : Sql A) (db : Database)
  : Database * (SqliteError + A) :=
  match fn db with
  | inr (a, db') => (db', inr a)
  | inl e => (db, inl e)
  end.

(** ** Route actions *)

(** [z.string().min(1)]. *)
Definition min1 (s : string) : bool := Nat.leb 1 (String.length s).

(** [z.string().email()] is zod's pattern; it is taken as given. *)
Variable z_email : string -> bool.

(** Form data of the add-customer action; [None] is an omitted field. *)
Record AddCustomerData : Type := {
  ac_name : string;
  ac_phone : string;
  ac_email : option string;
  ac_address : option string
}.

(** [zod$({ name: z.string().min(1), phone: z.string().min(1),
    email: z.string().email().optional().or(z.literal('')),
    address: z.string().optional() })]. *)
Definition validAddCustomer (data : AddCustomerData) : bool :=
  min1 (ac_name data) && min1 (ac_phone data) &&
  match ac_email data with
  | None => true
  | Some e => z_email e || String.eqb e ""
  end.

(** [useAddCustomerAction] (lines 42-44): one insert, no [try]. *)
Definition useAddCustomerAction (data : AddCustomerData) (db : Database)
  : Database * ActionOutcome unit :=
  if validAddCustomer data
  then
    match insert_customer (ac_name data) (ac_phone data) (ac_email data)
                          (ac_address data) db with
    | inr (_, db') => (db', Returned tt)
    | inl e => (db, Threw (SqliteErr e))
    end
  else (db, ValidationFailed).

(** Form data of the add-product action, [price] and [tax] after
    [z.coerce.number()]. *)
Record AddProductData : Type := {
  ap_name : string;
  ap_description : option string;
  ap_price : num;
  ap_tax : num
}.

(** [zod$({ name: z.string().min(1), description: z.string().optional(),
    price: z.coerce.number().min(0), tax: z.coerce.number().min(0) })]. *)
Definition validAddProduct (data : AddProductData) : bool :=
  min1 (ap_name data) && num_leb num_zero (ap_price data) &&
  num_leb num_zero (ap_tax data).

(** [useAddProductAction] (lines 46-48). *)
Definition useAddProductAction (data : AddProductData) (db : Database)
  : Database * ActionOutcome unit :=
  if validAddProduct data
  then
    match insert_product (ap_name data) (ap_description data) (ap_price data)
                         (ap_tax data) db with
    | inr (_, db') => (db', Returned tt)
    | inl e => (db, Threw (SqliteErr e))
    end
  else (db, ValidationFailed).

(** The text of the [itemsJSON] field, by what the action does with it: the
    empty text fails [z.string().min(1)]; a text [JSON.parse] rejects makes
    it throw a [SyntaxError]; a text that parses to something other than an
    array makes [items.reduce] throw a [TypeError]; the others are read as the
    [InvoiceItem[]] the action declares. *)
Inductive ItemsJSON : Type :=
| EmptyText
| NotJSON
| NotAnArray
| ItemsArray (items : list InvoiceItem).

(** Form data of the create-invoice action; [ci_customerId] is [None] when
    the field does not coerce to a number. *)
Record CreateInvoiceData : Type := {
  ci_customerId : option Z;
  ci_itemsJSON : ItemsJSON
}.

(** The object the create-invoice action returns:
    [{ success: true }] or [{ success: false, error: "..." }]. *)
Record CreateInvoiceResult : Type := {
  success : bool;
  error : option string
}.

(** A line [console.error] wrote: its text and the value printed after it. *)
Definition ConsoleLine : Type := (string * SqliteError)%type.

(** The loop of lines 65-67. *)
Fixpoint insert_items (invoiceId : Z) (items : list InvoiceItem) : Sql unit :=
  match items with
  | [] => ret tt
  | item :: rest =>
      _ <- insert_invoice_item invoiceId (item_id item) (item_quantity item)
                               (item_price item) (item_tax item) ;;
      insert_items invoiceId rest
  end.

(** The function given to [db.transaction] (lines 59-68). *)
Definition invoice_transaction (customerId : Z) (now : string)
  (items : list InvoiceItem) (total : num) : Sql unit :=
  invoiceId <- insert_invoice customerId now total ;;
  insert_items invoiceId items.

(** [useCreateInvoiceAction] (lines 50-77); [now] is
    [new Date().toISOString()]. *)
Definition useCreateInvoiceAction (now : string) (data : CreateInvoiceData)
  (db : Database)
  : Database * ActionOutcome CreateInvoiceResult * list ConsoleLine :=
  match ci_customerId data, ci_itemsJSON data with
  | None, _ => (db, ValidationFailed, [])
  | Some _, EmptyText => (db, ValidationFailed, [])
  | Some _, NotJSON => (db, Threw SyntaxError, [])
  | Some _, NotAnArray => (db, Threw TypeError, [])
  | Some customerId, ItemsArray items =>
      let total := totalAmount items in
      match transaction (invoice_transaction customerId now items total) db with
      | (db', inr _) =>
          (db', Returned {| success := true; error := None |}, [])
      | (db', inl e) =>
          (db',
           Returned {| success := false;
                       error := Some "Failed to save invoice."%string |},
           [("Invoice creation failed:"%string, e)])
      end
  end.

(** ** The command interface and the stores it reaches *)

Inductive Command : Type :=
| AddCustomer (data : AddCustomerData)
| AddProduct (data : AddProductData)
| CreateInvoice (now : string) (data : CreateInvoiceData).

Definition run (c : Command) (db : Database) : Database :=
  match c with
  | AddCustomer data => fst (useAddCustomerAction data db)
  | AddProduct data => fst (useAddProductAction data db)
  | CreateInvoice now data => fst (fst (useCreateInvoiceAction now data db))
  end.

(** The stores the application can be in: the empty one and what commands
    make of it. *)
Inductive reachable : Database -> Prop :=
| reachable_empty : reachable empty_db
| reachable_run : forall db c, reachable db -> reachable (run c db).

(** ** Route loaders *)

(** [ORDER BY]: insertion into an ordered list; rows with equal keys keep
    their order. *)
Fixpoint insert_by {A : Type} (le : A -> A -> bool) (x : A) (l : list A)
  : list A :=
  match l with
  | [] => [x]
  | y :: l' => if le x y then x :: l else y :: insert_by le x l'
  end.

Definition order_by {A : Type} (le : A -> A -> bool) (l : list A) : list A :=
  fold_right (insert_by le) [] l.

(** [SELECT * FROM customers ORDER BY name] (line 19); text compares byte by
    byte. *)
Definition useCustomersLoader (db : Database) : list Customer :=
  order_by (fun a b => String.leb (customer_name a) (customer_name b))
           (customers db).

(** [SELECT * FROM products ORDER BY name] (line 20). *)
Definition useProductsLoader (db : Database) : list Product :=
  order_by (fun a b => String.leb (product_name a) (product_name b))
           (products db).

(** A row of the items query: [name] and [description] of the product,
    [quantity], [priceAtSale as price], [taxAtSale as tax]. *)
Record HistoryItem : Type := {
  hi_name : string;
  hi_description : option string;
  hi_quantity : num;
  hi_price : num;
  hi_tax : num
}.

(** [interface Invoice], the rows the invoices loader returns. *)
Record Invoice : Type := {
  inv_id : Z;
  inv_customerId : Z;
  inv_createdAt : string;
  inv_totalAmount : num;
  inv_customerName : string;
  inv_items : list HistoryItem
}.

(** [FROM invoices i JOIN customers c ON i.customerId = c.id
    ORDER BY i.createdAt DESC] (lines 23-27). *)
Definition invoices_query (db : Database) : list (InvoiceRow * Customer) :=
  order_by
    (fun a b => String.leb (invoice_createdAt (fst b)) (invoice_createdAt (fst a)))
    (flat_map
       (fun i =>
          map (fun c => (i, c))
              (filter (fun c => Z.eqb (invoice_customerId i) (customer_id c))
                      (customers db)))
       (invoices db)).

(** [FROM invoice_items ii JOIN products p ON ii.productId = p.id
    WHERE ii.invoiceId = ?] (lines 29-33). *)
Definition itemsStmt (db : Database) (invoiceId : Z) : list HistoryItem :=
  flat_map
    (fun ii =>
       map (fun p =>
              {| hi_name := product_name p;
                 hi_description := product_description p;
                 hi_quantity := ii_quantity ii;
                 hi_price := ii_priceAtSale ii;
                 hi_tax := ii_taxAtSale ii |})
           (filter (fun p => Z.eqb (ii_productId ii) (product_id p))
                   (products db)))
    (filter (fun ii => Z.eqb (ii_invoiceId ii) invoiceId) (invoice_items db)).

(** [useInvoicesLoader] (lines 22-39). *)
Definition useInvoicesLoader (db : Database) : list Invoice :=
  map (fun ic =>
         {| inv_id := invoice_id (fst ic);
            inv_customerId := invoice_customerId (fst ic);
            inv_createdAt := invoice_createdAt (fst ic);
            inv_totalAmount := invoice_totalAmount (fst ic);
            inv_customerName := customer_name (snd ic);
            inv_items := itemsStmt db (invoice_id (fst ic)) |})
      (invoices_query db).

End Model.

(** ** The page ([export default component$] and its child components) *)

(** What the page's own code adds to [Number]: the literal [1]
    ([quantity: 1], [quantity++]), and whether [JSON.stringify] followed by
    [JSON.parse] gives a number back as it is (not NaN, not infinite, not
    the negative zero). *)
Class PageNumber (N : Number) : Type := {
  num_one : num;
  num_json_stable : num -> bool
}.

Definition ExactQ_page : PageNumber ExactQ :=
  @Build_PageNumber ExactQ 1%Q (fun _ => true).

Definition Binary64_page : PageNumber Binary64 :=
  @Build_PageNumber Binary64 1%float
    (fun x => PrimFloat.is_finite x
              && negb (PrimFloat.is_zero x && PrimFloat.get_sign x)).

(** The double quote character. *)
Definition dquote : string := String (Ascii.ascii_of_nat 34) EmptyString.

(** [activeTab]: ['customers' | 'products' | 'invoices']. *)
Inductive Tab : Type := customers_tab | products_tab | invoices_tab.

(** [invoiceView]: ['create' | 'history']. *)
Inductive InvoiceView : Type := create_view | history_view.

(** [notification]: [{ message, type, visible }]. *)
Record Notification : Type := {
  note_message : string;
  note_type : string;
  note_visible : bool
}.

(** [foundCustomer] of [CustomerManagement]:
    [Customer | null | 'not_found']. *)
Inductive FoundCustomer : Type :=
| nothing_searched
| found_customer (c : Customer)
| not_found.

Section Page.

Context {N : Number} {P : PageNumber N}.
Local Open Scope num_scope.

(** The click on Find (lines 172-175):
    [customers.find(c => c.phone === searchPhone.value)], then
    [cust ? cust : 'not_found']. *)
Definition findCustomer (customers : list Customer) (searchPhone : string)
  : FoundCustomer :=
  match find (fun c => String.eqb (customer_phone c) searchPhone) customers with
  | Some cust => found_customer cust
  | None => not_found
  end.

(** [invoiceState]: [{ customer: Customer | null; items: InvoiceItem[] }]. *)
Record InvoiceState : Type := {
  state_customer : option Customer;
  state_items : list InvoiceItem
}.

(** The state of the main component. *)
Record PageState : Type := {
  activeTab : Tab;
  invoiceView : InvoiceView;
  notification : Notification;
  invoiceState : InvoiceState
}.

(** The state the component starts in (lines 88-91). *)
Definition initial_page : PageState := {|
  activeTab := invoices_tab;
  invoiceView := create_view;
  notification :=
    {| note_message := ""; note_type := ""; note_visible := false |};
  invoiceState := {| state_customer := None; state_items := [] |}
|}.

(** [showNotification] (lines 105-110), up to its timer. *)
Definition showNotification (message type : string) (page : PageState)
  : PageState :=
  {| activeTab := activeTab page;
     invoiceView := invoiceView page;
     notification :=
       {| note_message := message; note_type := type; note_visible := true |};
     invoiceState := invoiceState page |}.

(** What the timer of [showNotification] does when it fires. *)
Definition hideNotification (page : PageState) : PageState :=
  {| activeTab := activeTab page;
     invoiceView := invoiceView page;
     notification :=
       {| note_message := note_message (notification page);
          note_type := note_type (notification page);
          note_visible := false |};
     invoiceState := invoiceState page |}.

(** [selectCustomer] (lines 112-116). *)
Definition selectCustomer (customer : Customer) (page : PageState)
  : PageState :=
  showNotification
    ("Customer " ++ dquote ++ customer_name customer ++ dquote ++ " selected.")
    "success"
    {| activeTab := products_tab;
       invoiceView := invoiceView page;
       notification := notification page;
       invoiceState :=
         {| state_customer := Some customer;
            state_items := state_items (invoiceState page) |} |}.

(** [existingItem.quantity++] on the item [find] returned: the first item
    with that key. *)
Fixpoint increment_quantity (id : Z) (items : list InvoiceItem)
  : list InvoiceItem :=
  match items with
  | [] => []
  | item :: rest =>
      if Z.eqb (item_id item) id
      then {| item_product := item_product item;
              item_quantity := item_quantity item + num_one |} :: rest
      else item :: increment_quantity id rest
  end.

(** The items after [addToInvoice] (lines 119-121). *)
Definition add_item (product : Product) (items : list InvoiceItem)
  : list InvoiceItem :=
  match find (fun item => Z.eqb (item_id item) (product_id product)) items with
  | Some _ => increment_quantity (product_id product) items
  | None => items ++ [{| item_product := product; item_quantity := num_one |}]
  end.

(** [addToInvoice] (lines 118-123). *)
Definition addToInvoice (product : Product) (page : PageState) : PageState :=
  showNotification
    ("Added " ++ dquote ++ product_name product ++ dquote ++ " to invoice.")
    "success"
    {| activeTab := activeTab page;
       invoiceView := invoiceView page;
       notification := notification page;
       invoiceState :=
         {| state_customer := state_customer (invoiceState page);
            state_items := add_item product (state_items (invoiceState page)) |} |}.

(** [clearInvoiceState] (lines 125-129). *)
Definition clearInvoiceState (page : PageState) : PageState :=
  {| activeTab := customers_tab;
     invoiceView := invoiceView page;
     notification := notification page;
     invoiceState := {| state_customer := None; state_items := [] |} |}.

(** The quantity field's [onInput$] (lines 246-249):
    [found = items.find(i => i.id === item.id)], then
    [if (found) found.quantity = parseInt(value, 10)]; [parsed] is what
    [parseInt] gave. *)
Fixpoint set_quantity (id : Z) (parsed : num) (items : list InvoiceItem)
  : list InvoiceItem :=
  match items with
  | [] => []
  | item :: rest =>
      if Z.eqb (item_id item) id
      then {| item_product := item_product item; item_quantity := parsed |}
           :: rest
      else item :: set_quantity id parsed rest
  end.

(** The Remove button (line 253):
    [items.filter(i => i.id !== item.id)]. *)
Definition remove_item (id : Z) (items : list InvoiceItem)
  : list InvoiceItem :=
  filter (fun i => negb (Z.eqb (item_id i) id)) items.

Definition with_items (items : list InvoiceItem) (page : PageState)
  : PageState :=
  {| activeTab := activeTab page;
     invoiceView := invoiceView page;
     notification := notification page;
     invoiceState :=
       {| state_customer := state_customer (invoiceState page);
          state_items := items |} |}.

(** The task that watches [createInvoiceAction.value] (lines 94-103): on
    [value?.success] it empties the invoice in progress and shows the
    history. *)
Definition invoiceSettled (value : ActionOutcome CreateInvoiceResult)
  (page : PageState) : PageState :=
  match value with
  | Returned r =>
      if success r
      then showNotification "Invoice saved successfully!" "success"
             {| activeTab := activeTab page;
                invoiceView := history_view;
                notification := notification page;
                invoiceState :=
                  {| state_customer := None; state_items := [] |} |}
      else page
  | _ => page
  end.

(** What a user, a timer or the server does to the page. *)
Inductive PageEvent : Type :=
| ClickTab (tab : Tab)
| ClickView (view : InvoiceView)
| SelectCustomer (customer : Customer)
| AddToInvoice (product : Product)
| ChangeCustomer
| InputQuantity (id : Z) (parsed : num)
| RemoveItem (id : Z)
| InvoiceSettled (value : ActionOutcome CreateInvoiceResult)
| NotificationTimer.

Definition page_step (e : PageEvent) (page : PageState) : PageState :=
  match e with
  | ClickTab tab =>
      {| activeTab := tab; invoiceView := invoiceView page;
         notification := notification page;
         invoiceState := invoiceState page |}
  | ClickView view =>
      {| activeTab := activeTab page; invoiceView := view;
         notification := notification page;
         invoiceState := invoiceState page |}
  | SelectCustomer customer => selectCustomer customer page
  | AddToInvoice product => addToInvoice product page
  | ChangeCustomer => clearInvoiceState page
  | InputQuantity id parsed =>
      with_items (set_quantity id parsed (state_items (invoiceState page))) page
  | RemoveItem id =>
      with_items (remove_item id (state_items (invoiceState page))) page
  | InvoiceSettled value => invoiceSettled value page
  | NotificationTimer => hideNotification page
  end.

(** The total a row of the items table shows (lines 241-242, 252; the same
    in the history, lines 286-287, 290): [itemTotal + itemTax]. *)
Definition shown_line_total (price quantity tax : num) : num :=
  let itemTotal := price * quantity in
  let itemTax := itemTotal * (tax / num_hundred) in
  itemTotal + itemTax.

(** What the Save Invoice form sends (lines 264-268). The button is disabled
    without a customer or without items. Otherwise the form carries the
    customer's key and [JSON.stringify(invoiceState.items)]; when the text
    gives every number back the server reads the same items, and when it
    does not (a NaN, an infinity or a negative zero is written as [null] or
    [0]) the server reads other values, which [ItemsJSON] does not
    describe. *)
Inductive Submission : Type :=
| SaveDisabled
| Sends (data : CreateInvoiceData)
| SendsOtherNumbers.

Definition item_json_stable (item : InvoiceItem) : bool :=
  num_json_stable (item_price item) && num_json_stable (item_tax item)
  && num_json_stable (item_quantity item).

Definition saveInvoice (st : InvoiceState) : Submission :=
  match state_customer st, state_items st with
  | None, _ => SaveDisabled
  | Some _, [] => SaveDisabled
  | Some customer, items =>
      if forallb item_json_stable items
      then Sends {| ci_customerId := Some (customer_id customer);
                    ci_itemsJSON := ItemsArray items |}
      else SendsOtherNumbers
  end.

End Page.

(** ** Vocabulary of the properties *)

Section Vocabulary.

Context {N : Number}.
Local Open Scope num_scope.

(** The row [row] is what the loop stores for [item] under [invoiceId]. *)
Definition row_of_item (invoiceId : Z) (item : InvoiceItem)
  (row : InvoiceItemRow) : Prop :=
  ii_invoiceId row = invoiceId /\
  ii_productId row = item_id item /\
  ii_quantity row = item_quantity item /\
  ii_priceAtSale row = item_price item /\
  ii_taxAtSale row = item_tax item.

(** Every submitted item names a product of the store. *)
Definition products_known (db : Database) (items : list InvoiceItem) : bool :=
  forallb (fun item => product_exists db (item_id item)) items.

(** No number of a submitted item is NaN, nor is their total: every value
    the inserts bind is one the [NOT NULL] columns take. *)
Definition item_storable (item : InvoiceItem) : bool :=
  negb (num_is_nan (item_quantity item) || num_is_nan (item_price item)
        || num_is_nan (item_tax item)).

Definition storable (items : list InvoiceItem) : bool :=
  negb (num_is_nan (totalAmount items)) && forallb item_storable items.

(** What the store asks of a create-invoice: values it can hold, a customer
    and products it knows. *)
Definition accepted (db : Database) (customerId : Z)
  (items : list InvoiceItem) : bool :=
  storable items && customer_exists db customerId && products_known db items.

(** The key and the header row a create-invoice gives its invoice. *)
Definition new_invoice_id (db : Database) : Z :=
  next_rowid (seq_invoices db) (map invoice_id (invoices db)).

Definition new_invoice (db : Database) (customerId : Z) (now : string)
  (items : list InvoiceItem) : InvoiceRow :=
  {| invoice_id := new_invoice_id db;
     invoice_customerId := customerId;
     invoice_createdAt := now;
     invoice_totalAmount := totalAmount items |}.

Definition saved : CreateInvoiceResult :=
  {| success := true; error := None |}.

Definition not_saved : CreateInvoiceResult :=
  {| success := false; error := Some "Failed to save invoice."%string |}.

(** The request that carries a customer key and an item array. *)
Definition invoice_request (customerId : Z) (items : list InvoiceItem)
  : CreateInvoiceData :=
  {| ci_customerId := Some customerId; ci_itemsJSON := ItemsArray items |}.

(** The line items the store holds for an invoice. *)
Definition items_of (db : Database) (invoiceId : Z) : list InvoiceItemRow :=
  filter (fun ii => Z.eqb (ii_invoiceId ii) invoiceId) (invoice_items db).

(** The fold of the create-invoice action, read over stored rows. *)
Definition rows_total (rows : list InvoiceItemRow) : num :=
  fold_left
    (fun acc r =>
       let itemTotal := ii_priceAtSale r * ii_quantity r in
       let taxAmount := itemTotal * (ii_taxAtSale r / num_hundred) in
       acc + itemTotal + taxAmount)
    rows num_zero.

(** Every line item belongs to an invoice of the store, and every invoice
    stores the total of its line items. *)
Definition consistent (db : Database) : Prop :=
  (forall ii, In ii (invoice_items db) ->
     invoice_exists db (ii_invoiceId ii) = true) /\
  (forall inv, In inv (invoices db) ->
     invoice_totalAmount inv = rows_total (items_of db (invoice_id inv))).

Definition phone_in_use (db : Database) (phone : string) : bool :=
  existsb (fun c => String.eqb (customer_phone c) phone) (customers db).

(** Customer keys are distinct and every invoice names a customer of the
    store. *)
Definition keyed (db : Database) : Prop :=
  NoDup (map customer_id (customers db)) /\
  forall inv, In inv (invoices db) ->
    customer_exists db (invoice_customerId inv) = true.

(** The row the items query makes of a line item and the product joined to
    it. *)
Definition history_item (p : Product) (ii : InvoiceItemRow) : HistoryItem :=
  {| hi_name := product_name p;
     hi_description := product_description p;
     hi_quantity := ii_quantity ii;
     hi_price := ii_priceAtSale ii;
     hi_tax := ii_taxAtSale ii |}.

(** What a history item shows of the sale itself. *)
Definition snapshot (h : HistoryItem) : num * num * num :=
  (hi_quantity h, hi_price h, hi_tax h).

End Vocabulary.

(** ** Properties of the store and of the commands, for any arithmetic *)

Section Properties.

Context {N : Number}.
Variable z_email : string -> bool.
Local Open Scope num_scope.

Lemma rowid_max_ge : forall ids id, In id ids -> (id <= rowid_max ids)%Z.
Proof.
  induction ids as [|x ids IH]; simpl; intros id Hin.
  - contradiction.
  - destruct Hin as [-> | Hin].
    + apply Z.le_max_l.
    + specialize (IH _ Hin). lia.
Qed.

Lemma next_rowid_fresh : forall seq ids id,
  In id ids -> (id < next_rowid seq ids)%Z.
Proof.
  intros seq ids id Hin. unfold next_rowid.
  pose proof (rowid_max_ge ids id Hin). lia.
Qed.

Lemma existsb_app_l : forall (A : Type) (f : A -> bool) l l',
  existsb f l = true -> existsb f (l ++ l') = true.
Proof.
  intros A f l l' H. rewrite existsb_app, H. reflexivity.
Qed.

(** The loop, when it returns: only [invoice_items] grew, by one row per
    item, in order; every item named a known product and held no NaN. *)
Lemma insert_items_returns : forall items invoiceId db u db',
  insert_items invoiceId items db = inr (u, db') ->
  customers db' = customers db /\
  products db' = products db /\
  invoices db' = invoices db /\
  products_known db items = true /\
  forallb item_storable items = true /\
  exists rows,
    invoice_items db' = invoice_items db ++ rows /\
    Forall2 (row_of_item invoiceId) items rows.
Proof.
  induction items as [|item rest IH]; intros invoiceId db u db' H.
  - simpl in H. unfold ret in H. inversion H; subst.
    repeat split; auto. exists []. rewrite app_nil_r. split; constructor.
  - simpl in H. unfold bind, insert_invoice_item in H.
    destruct (num_is_nan (item_quantity item) || num_is_nan (item_price item)
              || num_is_nan (item_tax item)) eqn:Hnan; [discriminate|].
    destruct (invoice_exists db invoiceId && product_exists db (item_id item))
      eqn:Hfk; [|discriminate].
    apply andb_prop in Hfk. destruct Hfk as [_ Hp].
    apply IH in H. simpl in H.
    destruct H as (Hc & Hpr & Hi & Hk & Hs & rows & Hrows & Hall).
    repeat split; auto.
    + simpl. rewrite Hp. exact Hk.
    + simpl. unfold item_storable at 1. rewrite Hnan. exact Hs.
    + eexists (_ :: rows). split.
      * rewrite Hrows, <- app_assoc. reflexivity.
      * constructor; [|exact Hall]. repeat split.
Qed.

(** The loop, when it throws: the invoice is not there, or some item named
    no product or held a NaN. *)
Lemma insert_items_throws : forall items invoiceId db e,
  insert_items invoiceId items db = inl e ->
  invoice_exists db invoiceId = false \/
  products_known db items = false \/
  forallb item_storable items = false.
Proof.
  induction items as [|item rest IH]; intros invoiceId db e H.
  - discriminate.
  - simpl in H. unfold bind, insert_invoice_item in H.
    destruct (num_is_nan (item_quantity item) || num_is_nan (item_price item)
              || num_is_nan (item_tax item)) eqn:Hnan.
    { right. right. simpl. unfold item_storable at 1. rewrite Hnan.
      reflexivity. }
    destruct (invoice_exists db invoiceId) eqn:Hi; simpl in H; [|auto].
    destruct (product_exists db (item_id item)) eqn:Hp.
    + apply IH in H. destruct H as [H | [H | H]].
      * unfold invoice_exists in *. simpl in H. congruence.
      * right. left. simpl. rewrite Hp. exact H.
      * right. right. simpl. unfold item_storable at 1. rewrite Hnan.
        exact H.
    + right. left. simpl. rewrite Hp. reflexivity.
Qed.

(** The loop returns whenever the invoice is there, every product is known
    and no number is NaN. *)
Lemma insert_items_total : forall items invoiceId db,
  invoice_exists db invoiceId = true ->
  products_known db items = true ->
  forallb item_storable items = true ->
  exists db', insert_items invoiceId items db = inr (tt, db').
Proof.
  intros items invoiceId db Hi Hk Hs.
  destruct (insert_items invoiceId items db) as [e | [[] db']] eqn:H.
  - apply insert_items_throws in H. destruct H as [H | [H | H]]; congruence.
  - eauto.
Qed.

(** What the create-invoice action does with an item array: when the store
    accepts it, the action commits the header and one row per item;
    otherwise it rolls back, logs the cause and reports the failure. *)
Lemma createInvoice_cases : forall now customerId items db,
  (accepted db customerId items = true /\
   exists db' rows,
     useCreateInvoiceAction now (invoice_request customerId items) db
       = (db', Returned saved, []) /\
     customers db' = customers db /\
     products db' = products db /\
     invoices db' = invoices db ++ [new_invoice db customerId now items] /\
     invoice_items db' = invoice_items db ++ rows /\
     Forall2 (row_of_item (new_invoice_id db)) items rows)
  \/
  (accepted db customerId items = false /\
   exists cause,
     useCreateInvoiceAction now (invoice_request customerId items) db
       = (db, Returned not_saved,
          [("Invoice creation failed:"%string, cause)])).
Proof.
  intros now customerId items db.
  unfold useCreateInvoiceAction, invoice_request, transaction,
    invoice_transaction, bind, insert_invoice, accepted, storable. simpl.
  destruct (num_is_nan (totalAmount items)) eqn:Hnan; simpl.
  { right. split; [reflexivity | eexists; reflexivity]. }
  destruct (customer_exists db customerId) eqn:Hc; simpl.
  - match goal with
    | |- context [insert_items ?i ?l ?d] =>
        destruct (insert_items i l d) as [e | [[] db']] eqn:Hloop
    end.
    + apply insert_items_throws in Hloop. right. split.
      * destruct Hloop as [H | [H | H]].
        -- exfalso. unfold invoice_exists in H. simpl in H.
           rewrite existsb_app in H. simpl in H. rewrite Z.eqb_refl in H.
           rewrite orb_true_r in H. discriminate.
        -- rewrite andb_true_r. apply andb_false_iff. right. exact H.
        -- rewrite H. reflexivity.
      * eexists. reflexivity.
    + apply insert_items_returns in Hloop. simpl in Hloop.
      destruct Hloop as (H1 & H2 & H3 & H4 & H5 & rows & H6 & H7).
      left. split.
      * rewrite H5. simpl. exact H4.
      * exists db', rows. repeat split; auto.
  - right. split; [rewrite andb_false_r; reflexivity | eexists; reflexivity].
Qed.

(** C1. Invoice creation is atomic. For every create-invoice request,
    either the action reports success and the store holds the new header row
    and one [invoice_items] row for every submitted item (all under the new
    invoice's key, nothing else changed), or it does not report success and
    the store is the one before the request. In particular, when some
    submitted item names no product, so that its insert fails after the
    header and the items before it went in, the store is unchanged and the
    failure is reported. *)
Theorem createInvoice_atomic : forall now data db,
  let result := useCreateInvoiceAction now data db in
  let db' := fst (fst result) in
  let outcome := snd (fst result) in
  ((outcome = Returned saved /\
    exists customerId items rows,
      data = invoice_request customerId items /\
      customers db' = customers db /\
      products db' = products db /\
      invoices db' = invoices db ++ [new_invoice db customerId now items] /\
      invoice_items db' = invoice_items db ++ rows /\
      Forall2 (row_of_item (new_invoice_id db)) items rows)
   \/
   (outcome <> Returned saved /\ db' = db))
  /\
  (forall customerId items,
     data = invoice_request customerId items ->
     products_known db items = false ->
     outcome = Returned not_saved /\ db' = db).
Proof.
  intros now data db result db' outcome. split.
  - destruct data as [[customerId|] json].
    2:{ right. split; [discriminate | reflexivity]. }
    destruct json as [| | |items];
      try (right; split; [discriminate | reflexivity]).
    destruct (createInvoice_cases now customerId items db)
      as [(_ & d & rows & Hrun & H)|(_ & cause & Hrun)];
      unfold invoice_request in Hrun; subst result db' outcome;
      rewrite Hrun; simpl.
    + left. split; [reflexivity|]. exists customerId, items, rows. auto.
    + right. split; [discriminate | reflexivity].
  - intros customerId items -> Hk.
    destruct (createInvoice_cases now customerId items db)
      as [(Hok & _)|(_ & cause & Hrun)].
    + unfold accepted in Hok. rewrite Hk, andb_false_r in Hok. discriminate.
    + subst result db' outcome. rewrite Hrun. simpl. auto.
Qed.

(** *** The stored total and the stored line items *)

Lemma rows_total_of_items : forall invoiceId items rows,
  Forall2 (row_of_item invoiceId) items rows ->
  rows_total rows = totalAmount items.
Proof.
  intros invoiceId items rows H. unfold rows_total, totalAmount.
  generalize (@num_zero N).
  induction H as [|item row items rows Hrow _ IH]; intro acc; simpl.
  - reflexivity.
  - destruct Hrow as (_ & _ & -> & -> & ->). apply IH.
Qed.

Lemma rows_of_invoice : forall invoiceId items rows,
  Forall2 (row_of_item invoiceId) items rows ->
  Forall (fun r => ii_invoiceId r = invoiceId) rows.
Proof.
  intros invoiceId items rows H.
  induction H as [|item row items rows Hrow _ IH]; constructor; auto.
  apply Hrow.
Qed.

Lemma filter_keeps : forall (A : Type) (f : A -> bool) l,
  Forall (fun x => f x = true) l -> filter f l = l.
Proof.
  intros A f l H. induction H as [|x l Hx _ IH]; simpl.
  - reflexivity.
  - rewrite Hx, IH. reflexivity.
Qed.

Lemma filter_drops : forall (A : Type) (f : A -> bool) l,
  Forall (fun x => f x = false) l -> filter f l = [].
Proof.
  intros A f l H. induction H as [|x l Hx _ IH]; simpl.
  - reflexivity.
  - rewrite Hx. exact IH.
Qed.

Lemma invoice_exists_In : forall db id,
  invoice_exists db id = true ->
  exists inv, In inv (invoices db) /\ invoice_id inv = id.
Proof.
  intros db id H. unfold invoice_exists in H.
  apply existsb_exists in H. destruct H as (inv & Hin & Heq).
  exists inv. split; [exact Hin | apply Z.eqb_eq; exact Heq].
Qed.

Lemma new_invoice_id_fresh : forall db inv,
  In inv (invoices db) -> (invoice_id inv < new_invoice_id db)%Z.
Proof.
  intros db inv Hin. apply next_rowid_fresh. apply in_map. exact Hin.
Qed.

Lemma consistent_same_tables : forall db db',
  invoices db' = invoices db ->
  invoice_items db' = invoice_items db ->
  consistent db -> consistent db'.
Proof.
  intros db db' Hi Hii [Hfk Htot].
  unfold consistent, invoice_exists, items_of. rewrite Hi, Hii.
  split; assumption.
Qed.

Lemma consistent_empty : consistent empty_db.
Proof.
  split; simpl; intros ? [].
Qed.

(** A committed invoice keeps the store consistent: its key is new, so the
    rows it adds are its own and no older row is. *)
Lemma consistent_commit : forall db db' customerId now items rows,
  consistent db ->
  invoices db' = invoices db ++ [new_invoice db customerId now items] ->
  invoice_items db' = invoice_items db ++ rows ->
  Forall2 (row_of_item (new_invoice_id db)) items rows ->
  consistent db'.
Proof.
  intros db db' customerId now items rows [Hfk Htot] Hi Hii Hrows.
  pose proof (rows_of_invoice Hrows) as Hown.
  unfold consistent, invoice_exists, items_of. rewrite Hi, Hii. split.
  - intros ii Hin. apply in_app_or in Hin. destruct Hin as [Hin | Hin].
    + apply existsb_app_l. apply Hfk. exact Hin.
    + rewrite Forall_forall in Hown. rewrite (Hown _ Hin).
      rewrite existsb_app. simpl. rewrite Z.eqb_refl.
      rewrite orb_true_r. reflexivity.
  - intros inv Hin. rewrite filter_app.
    apply in_app_or in Hin. destruct Hin as [Hin | [<- | []]].
    + rewrite (@filter_drops _ _ rows).
      * rewrite app_nil_r. apply Htot. exact Hin.
      * eapply Forall_impl; [|exact Hown]. intros r Hr. simpl in Hr.
        rewrite Hr. apply Z.eqb_neq.
        pose proof (new_invoice_id_fresh db inv Hin). lia.
    + simpl. rewrite (@filter_drops _ _ (invoice_items db)).
      * rewrite (@filter_keeps _ _ rows).
        -- simpl. symmetry. eapply rows_total_of_items. exact Hrows.
        -- eapply Forall_impl; [|exact Hown]. intros r Hr. simpl in Hr.
           rewrite Hr. apply Z.eqb_refl.
      * apply Forall_forall. intros ii Hin.
        apply Hfk in Hin. apply invoice_exists_In in Hin.
        destruct Hin as (inv & Hin & Heq).
        apply Z.eqb_neq. rewrite <- Heq.
        pose proof (new_invoice_id_fresh db inv Hin). lia.
Qed.

Lemma consistent_run : forall c db, consistent db -> consistent (run z_email c db).
Proof.
  intros [data | data | now data] db H; simpl.
  - unfold useAddCustomerAction, insert_customer.
    destruct (validAddCustomer z_email data); [|exact H].
    destruct (existsb _ (customers db)); [exact H|].
    simpl. eapply consistent_same_tables; [| |exact H]; reflexivity.
  - unfold useAddProductAction, insert_product.
    destruct (validAddProduct data); [|exact H].
    destruct (num_is_nan (ap_price data) || num_is_nan (ap_tax data));
      [exact H|].
    simpl. eapply consistent_same_tables; [| |exact H]; reflexivity.
  - destruct data as [[customerId|] json]; [|exact H].
    destruct json as [| | |items]; try exact H.
    destruct (createInvoice_cases now customerId items db)
      as [(_ & db' & rows & Hrun & _ & _ & Hi & Hii & Hrows)|(_ & cause & Hrun)];
      unfold invoice_request in Hrun; rewrite Hrun; simpl.
    + eapply consistent_commit; eauto.
    + exact H.
Qed.

Lemma reachable_consistent : forall db, reachable z_email db -> consistent db.
Proof.
  intros db H. induction H as [|db c _ IH].
  - apply consistent_empty.
  - apply consistent_run. exact IH.
Qed.

(** *** What the create-invoice action checks, and what it answers *)


(** C8, as the code has it. The object the create-invoice action returns is
    one of two constants. On success it is [{ success: true }], with no key
    of the new invoice in it and nothing logged; on failure it is
    [{ success: false, error: "Failed to save invoice." }], the store is the
    one before the request, and the underlying cause goes to the error
    console, not into the object. *)
Theorem createInvoice_result : forall now data db r,
  let result := useCreateInvoiceAction now data db in
  snd (fst result) = Returned r ->
  (r = saved /\ snd result = []) \/
  (r = not_saved /\ fst (fst result) = db /\
   exists cause,
     snd result = [("Invoice creation failed:"%string, cause)]).
Proof.
  intros now data db r result H. subst result.
  destruct data as [[customerId|] json]; [|discriminate].
  destruct json as [| | |items]; try discriminate.
  destruct (createInvoice_cases now customerId items db)
    as [(_ & d & rows & Hrun & _)|(_ & cause & Hrun)];
    unfold invoice_request in Hrun; rewrite Hrun in *; simpl in *;
    inversion H; subst.
  - left. auto.
  - right. eauto.
Qed.

(** *** Adding a customer whose phone is taken *)

(** C7, what the code does. Adding a customer whose phone number is in use
    fails with the store's uniqueness error and leaves the store, so the
    customer table, as it was. The add-customer action has no handler of the
    kind [useCreateInvoiceAction] has: the error leaves the action as a
    thrown fault, and no result object is returned. *)
Theorem addCustomer_phone_in_use : forall data db,
  validAddCustomer z_email data = true ->
  phone_in_use db (ac_phone data) = true ->
  useAddCustomerAction z_email data db
    = (db, Threw (SqliteErr SQLITE_CONSTRAINT_UNIQUE)).
Proof.
  intros data db Hv Hp.
  unfold useAddCustomerAction, insert_customer. rewrite Hv.
  unfold phone_in_use in Hp. rewrite Hp. reflexivity.
Qed.

End Properties.

(** ** [ORDER BY] orders, and keeps the rows *)

Section Ordering.

Variable A : Type.
Variable le : A -> A -> bool.
Hypothesis le_total : forall a b, le a b = true \/ le b a = true.

Let R (a b : A) : Prop := le a b = true.

Lemma insert_by_perm : forall x l, Permutation (insert_by le x l) (x :: l).
Proof.
  intros x l. induction l as [|y l IH]; simpl.
  - apply Permutation_refl.
  - destruct (le x y).
    + apply Permutation_refl.
    + eapply perm_trans; [apply perm_skip, IH | apply perm_swap].
Qed.

Lemma order_by_perm : forall l, Permutation (order_by le l) l.
Proof.
  induction l as [|x l IH]; simpl.
  - apply perm_nil.
  - eapply perm_trans; [apply insert_by_perm | apply perm_skip, IH].
Qed.

Lemma insert_by_head : forall a x l,
  HdRel R a l -> R a x -> HdRel R a (insert_by le x l).
Proof.
  intros a x l Hl Hx. destruct l as [|y l]; simpl.
  - constructor. exact Hx.
  - destruct (le x y); constructor.
    + exact Hx.
    + inversion Hl; assumption.
Qed.

Lemma insert_by_sorted : forall x l,
  Sorted R l -> Sorted R (insert_by le x l).
Proof.
  intros x l H. induction H as [|y l Hs IH Hhd]; simpl.
  - repeat constructor.
  - destruct (le x y) eqn:Hxy.
    + constructor; [constructor; assumption | constructor; exact Hxy].
    + constructor; [exact IH|].
      apply insert_by_head; [exact Hhd|].
      destruct (le_total x y) as [H | H]; [congruence | exact H].
Qed.

Lemma order_by_sorted : forall l, Sorted R (order_by le l).
Proof.
  induction l as [|x l IH]; simpl.
  - constructor.
  - apply insert_by_sorted. exact IH.
Qed.

End Ordering.

(** Byte-wise comparison of texts is transitive. *)
Lemma string_compare_agrees : forall a b : string,
  String.compare a b = OrdersEx.String_as_OT.compare a b.
Proof.
  intros a b. reflexivity.
Qed.

Lemma string_leb_lt : forall a b : string,
  String.leb a b = true <-> a = b \/ OrdersEx.String_as_OT.lt a b.
Proof.
  intros a b. unfold String.leb. rewrite string_compare_agrees.
  destruct (OrdersEx.String_as_OT.compare_spec a b) as [Heq | Hlt | Hgt].
  - split; auto.
  - split; auto.
  - split; [discriminate|]. intros [Heq | Hlt].
    + subst b. exfalso. exact (StrictOrder_Irreflexive a Hgt).
    + exfalso. apply (StrictOrder_Irreflexive a).
      exact (StrictOrder_Transitive a b a Hlt Hgt).
Qed.

Lemma string_leb_trans : forall a b c : string,
  String.leb a b = true -> String.leb b c = true -> String.leb a c = true.
Proof.
  intros a b c Hab Hbc.
  apply string_leb_lt in Hab. apply string_leb_lt in Hbc.
  apply string_leb_lt.
  destruct Hab as [-> | Hab]; [exact Hbc|].
  destruct Hbc as [<- | Hbc]; [right; exact Hab|].
  right. exact (StrictOrder_Transitive a b c Hab Hbc).
Qed.

(** Rows ordered by a text key, each next to its neighbour, are ordered
    pairwise. *)
Lemma sorted_by_text : forall (A : Type) (key : A -> string) (l : list A),
  Sorted (fun a b => String.leb (key a) (key b) = true) l ->
  StronglySorted (fun a b => String.leb (key a) (key b) = true) l.
Proof.
  intros A key l H. apply Sorted_StronglySorted; [|exact H].
  intros a b c. apply string_leb_trans.
Qed.

Lemma sorted_by_text_desc : forall (A : Type) (key : A -> string) (l : list A),
  Sorted (fun a b => String.leb (key b) (key a) = true) l ->
  StronglySorted (fun a b => String.leb (key b) (key a) = true) l.
Proof.
  intros A key l H. apply Sorted_StronglySorted; [|exact H].
  intros a b c Hab Hbc. exact (string_leb_trans _ _ _ Hbc Hab).
Qed.

Lemma Sorted_map : forall (A B : Type) (f : A -> B) (R : B -> B -> Prop) l,
  Sorted (fun a b => R (f a) (f b)) l -> Sorted R (map f l).
Proof.
  intros A B f R l H. induction H as [|x l Hs IH Hhd]; simpl.
  - constructor.
  - constructor; [exact IH|].
    destruct Hhd; simpl; constructor. assumption.
Qed.

(** ** The queries *)

Section Queries.

Context {N : Number}.
Variable z_email : string -> bool.

Lemma NoDup_snoc_fresh : forall (l : list Z) (x : Z),
  NoDup l -> (forall y, In y l -> (y < x)%Z) -> NoDup (l ++ [x]).
Proof.
  intros l x Hl Hlt. induction Hl as [|y l Hy _ IH]; simpl.
  - constructor; [intros [] | constructor].
  - constructor.
    + intro Hin. apply in_app_or in Hin. destruct Hin as [Hin | [<- | []]].
      * contradiction.
      * specialize (Hlt x (or_introl eq_refl)). lia.
    + apply IH. intros z Hz. apply Hlt. right. exact Hz.
Qed.

Lemma keyed_run : forall c db, keyed db -> keyed (run z_email c db).
Proof.
  intros [data | data | now data] db [Hnd Hfk]; simpl.
  - unfold useAddCustomerAction, insert_customer.
    destruct (validAddCustomer z_email data); [|split; assumption].
    destruct (existsb _ (customers db)); [split; assumption|].
    simpl. split; simpl.
    + rewrite map_app. simpl. apply NoDup_snoc_fresh; [exact Hnd|].
      intros y Hy. apply next_rowid_fresh. exact Hy.
    + intros inv Hin. unfold customer_exists. simpl.
      apply existsb_app_l. apply Hfk. exact Hin.
  - unfold useAddProductAction, insert_product.
    destruct (validAddProduct data); [|split; assumption].
    destruct (num_is_nan (ap_price data) || num_is_nan (ap_tax data));
      [split; assumption|].
    simpl. split; simpl; assumption.
  - destruct data as [[customerId|] json]; [|split; assumption].
    destruct json as [| | |items]; try (split; assumption).
    destruct (createInvoice_cases now customerId items db)
      as [(Hok & db' & rows & Hrun & Hc & _ & Hi & _)|(_ & cause & Hrun)];
      unfold invoice_request in Hrun; rewrite Hrun; simpl.
    + unfold accepted in Hok.
      apply andb_prop in Hok. destruct Hok as [Hok _].
      apply andb_prop in Hok. destruct Hok as [_ Hok].
      unfold keyed, customer_exists in *. rewrite Hc, Hi. split; [exact Hnd|].
      intros inv Hin. apply in_app_or in Hin.
      destruct Hin as [Hin | [<- | []]]; [apply Hfk; exact Hin | exact Hok].
    + split; assumption.
Qed.

Lemma reachable_keyed : forall db, reachable z_email db -> keyed db.
Proof.
  intros db H. induction H as [|db c _ IH].
  - split; simpl; [constructor | intros ? []].
  - apply keyed_run. exact IH.
Qed.

(** With distinct keys, the join finds exactly one customer for a key that
    exists. *)
Lemma join_customer_once : forall (cs : list Customer) (k : Z),
  NoDup (map customer_id cs) ->
  existsb (fun c => Z.eqb (customer_id c) k) cs = true ->
  exists c, filter (fun c => Z.eqb k (customer_id c)) cs = [c].
Proof.
  induction cs as [|c0 cs IH]; simpl; intros k Hnd Hex.
  - discriminate.
  - inversion Hnd as [|? ? Hnotin Hnd']; subst.
    destruct (Z.eqb_spec k (customer_id c0)) as [-> | Hne].
    + exists c0. f_equal. apply filter_drops. apply Forall_forall.
      intros c Hc. apply Z.eqb_neq. intro Heq. apply Hnotin.
      rewrite Heq. apply in_map. exact Hc.
    + destruct (Z.eqb_spec (customer_id c0) k) as [Heq | _];
        [congruence|]. simpl in Hex. apply IH; assumption.
Qed.

Lemma join_keeps_invoices : forall (cs : list Customer) (invs : list InvoiceRow),
  NoDup (map customer_id cs) ->
  (forall inv, In inv invs ->
     existsb (fun c => Z.eqb (customer_id c) (invoice_customerId inv)) cs = true) ->
  map fst
      (flat_map
         (fun i =>
            map (fun c => (i, c))
                (filter (fun c => Z.eqb (invoice_customerId i) (customer_id c)) cs))
         invs)
  = invs.
Proof.
  intros cs invs Hnd. induction invs as [|i invs IH]; intro Hfk; simpl.
  - reflexivity.
  - destruct (join_customer_once cs (invoice_customerId i) Hnd) as [c Hc].
    + apply Hfk. left. reflexivity.
    + rewrite Hc. simpl. f_equal. apply IH.
      intros inv Hin. apply Hfk. right. exact Hin.
Qed.

(** C9. Query ordering. For every store, the customers loader and the
    products loader return the rows of their table ordered by name,
    ascending (every row's name is at most that of every row after it); the
    invoices loader returns invoices ordered by [createdAt], descending,
    each an invoice row of the store joined with the customer row its
    [customerId] names, whose name it carries; in a store the commands
    reach, it returns every invoice, once. *)
Theorem loaders_ordered : forall db : Database,
  (StronglySorted
     (fun a b => String.leb (customer_name a) (customer_name b) = true)
     (useCustomersLoader db) /\
   Permutation (useCustomersLoader db) (customers db))
  /\
  (StronglySorted
     (fun a b => String.leb (product_name a) (product_name b) = true)
     (useProductsLoader db) /\
   Permutation (useProductsLoader db) (products db))
  /\
  (StronglySorted
     (fun a b => String.leb (inv_createdAt b) (inv_createdAt a) = true)
     (useInvoicesLoader db) /\
   (forall inv, In inv (useInvoicesLoader db) ->
      exists i c,
        In i (invoices db) /\ In c (customers db) /\
        customer_id c = invoice_customerId i /\
        inv_id inv = invoice_id i /\
        inv_customerId inv = invoice_customerId i /\
        inv_createdAt inv = invoice_createdAt i /\
        inv_totalAmount inv = invoice_totalAmount i /\
        inv_customerName inv = customer_name c /\
        inv_items inv = itemsStmt db (invoice_id i)) /\
   (reachable z_email db ->
      Permutation (map inv_id (useInvoicesLoader db))
                  (map invoice_id (invoices db)))).
Proof.
  intro db. repeat split.
  - apply sorted_by_text.
    apply order_by_sorted. intros a b. apply String.leb_total.
  - apply order_by_perm.
  - apply sorted_by_text.
    apply order_by_sorted. intros a b. apply String.leb_total.
  - apply order_by_perm.
  - apply sorted_by_text_desc.
    unfold useInvoicesLoader. apply Sorted_map. simpl.
    apply (order_by_sorted
             (fun a b : InvoiceRow * Customer =>
                String.leb (invoice_createdAt (fst b))
                           (invoice_createdAt (fst a)))).
    intros a b. apply String.leb_total.
  - intros inv Hin. unfold useInvoicesLoader in Hin.
    apply in_map_iff in Hin. destruct Hin as ([i c] & <- & Hin).
    unfold invoices_query in Hin.
    eapply Permutation_in in Hin; [|apply order_by_perm].
    apply in_flat_map in Hin. destruct Hin as (i' & Hi & Hin).
    apply in_map_iff in Hin. destruct Hin as (c' & Heq & Hc).
    inversion Heq; subst. apply filter_In in Hc. destruct Hc as [Hc Hid].
    apply Z.eqb_eq in Hid. exists i, c. simpl. repeat split; auto.
  - intro Hreach. apply reachable_keyed in Hreach. destruct Hreach as [Hnd Hfk].
    unfold useInvoicesLoader. rewrite map_map. simpl.
    rewrite <- (map_map fst invoice_id). apply Permutation_map.
    unfold invoices_query.
    eapply perm_trans; [apply Permutation_map, order_by_perm|].
    rewrite join_keeps_invoices; [apply Permutation_refl | exact Hnd | exact Hfk].
Qed.

(** *** The items of an invoice in the history *)

Lemma map_flat_map : forall (A B C : Type) (g : B -> C) (f : A -> list B) l,
  map g (flat_map f l) = flat_map (fun x => map g (f x)) l.
Proof.
  intros A B C g f l. induction l as [|x l IH]; simpl.
  - reflexivity.
  - rewrite map_app, IH. reflexivity.
Qed.

(** The rows a key selects are as many as the keys say, whatever else the
    product rows hold. *)
Lemma join_by_keys : forall (C : Type) (c : C) (k : Z) (ps ps' : list Product),
  map product_id ps' = map product_id ps ->
  map (fun _ => c) (filter (fun p => Z.eqb k (product_id p)) ps')
  = map (fun _ => c) (filter (fun p => Z.eqb k (product_id p)) ps).
Proof.
  intros C c k ps. induction ps as [|p ps IH]; intros [|p' ps'] H;
    simpl in *; try discriminate.
  - reflexivity.
  - inversion H as [[Hid Hrest]]. rewrite Hid.
    destruct (Z.eqb k (product_id p)); simpl; rewrite (IH _ Hrest);
      reflexivity.
Qed.

Lemma join_no_product : forall (db : Database) (k : Z),
  product_exists db k = false ->
  filter (fun p => Z.eqb k (product_id p)) (products db) = [].
Proof.
  intros db k H. unfold product_exists in H.
  apply filter_drops. apply Forall_forall. intros p Hp.
  destruct (Z.eqb_spec k (product_id p)) as [Heq | _]; [|reflexivity].
  assert (existsb (fun p0 => Z.eqb (product_id p0) k) (products db) = true)
    as Hex.
  { apply existsb_exists. exists p. split; [exact Hp|].
    apply Z.eqb_eq. symmetry. exact Heq. }
  congruence.
Qed.

(** C10. In the invoice history, the items of an invoice are its stored
    line items joined with the current product rows on [productId]: quantity,
    price and tax come from the line item ([priceAtSale], [taxAtSale]), name
    and description from the product row as it is now. So the quantities,
    prices and taxes shown do not change when product rows change and keep
    their keys, and a line item whose product row is absent is left out. *)
Theorem history_items_join : forall (db : Database) (invoiceId : Z),
  (forall h, In h (itemsStmt db invoiceId) <->
     exists ii p,
       In ii (invoice_items db) /\ ii_invoiceId ii = invoiceId /\
       In p (products db) /\ product_id p = ii_productId ii /\
       h = history_item p ii)
  /\
  (forall db' : Database,
     invoice_items db' = invoice_items db ->
     map product_id (products db') = map product_id (products db) ->
     map snapshot (itemsStmt db' invoiceId)
     = map snapshot (itemsStmt db invoiceId))
  /\
  (forall (db' : Database) before ii after,
     invoice_items db = before ++ ii :: after ->
     product_exists db (ii_productId ii) = false ->
     products db' = products db ->
     invoice_items db' = before ++ after ->
     itemsStmt db invoiceId = itemsStmt db' invoiceId).
Proof.
  intros db invoiceId. split; [|split].
  - intro h. unfold itemsStmt. rewrite in_flat_map. split.
    + intros (ii & Hii & Hh). apply filter_In in Hii. destruct Hii as [Hii Hid].
      apply in_map_iff in Hh. destruct Hh as (p & <- & Hp).
      apply filter_In in Hp. destruct Hp as [Hp Hpid].
      apply Z.eqb_eq in Hid. apply Z.eqb_eq in Hpid.
      exists ii, p. repeat split; auto.
    + intros (ii & p & Hii & Hid & Hp & Hpid & ->).
      exists ii. split.
      * apply filter_In. split; [exact Hii | apply Z.eqb_eq; exact Hid].
      * apply in_map_iff. exists p. split; [reflexivity|].
        apply filter_In. split; [exact Hp | apply Z.eqb_eq; auto].
  - intros db' Hii Hkeys. unfold itemsStmt. rewrite Hii.
    rewrite !map_flat_map. apply flat_map_ext. intro ii.
    rewrite !map_map. simpl.
    apply (join_by_keys (ii_quantity ii, ii_priceAtSale ii, ii_taxAtSale ii)).
    exact Hkeys.
  - intros db' before ii after Hii Hno Hp Hii'. unfold itemsStmt.
    rewrite Hii, Hii', Hp, !filter_app, !flat_map_app. f_equal. simpl.
    destruct (Z.eqb (ii_invoiceId ii) invoiceId); [|reflexivity].
    simpl. rewrite (join_no_product db _ Hno). reflexivity.
Qed.

End Queries.

(** ** The store over time *)

Section LedgerVocabulary.

Context {N : Number}.

(** [db'] holds every row of [db], in place, possibly followed by new rows,
    and no sequence value of [db'] is below that of [db]. *)
Definition extends (db db' : Database) : Prop :=
  (exists rows, customers db' = customers db ++ rows) /\
  (exists rows, products db' = products db ++ rows) /\
  (exists rows, invoices db' = invoices db ++ rows) /\
  (exists rows, invoice_items db' = invoice_items db ++ rows) /\
  (seq_customers db <= seq_customers db')%Z /\
  (seq_products db <= seq_products db')%Z /\
  (seq_invoices db <= seq_invoices db')%Z /\
  (seq_invoice_items db <= seq_invoice_items db')%Z.

(** Keys in insertion order: positive, strictly increasing, at most the
    sequence value. *)
Definition keys_ok (keys : list Z) (seq : Z) : Prop :=
  StronglySorted Z.lt keys /\ Forall (fun k => (0 < k <= seq)%Z) keys.

Definition well_keyed (db : Database) : Prop :=
  keys_ok (map customer_id (customers db)) (seq_customers db) /\
  keys_ok (map product_id (products db)) (seq_products db) /\
  keys_ok (map invoice_id (invoices db)) (seq_invoices db) /\
  keys_ok (map ii_id (invoice_items db)) (seq_invoice_items db).

(** Every foreign key names a row. *)
Definition referential (db : Database) : Prop :=
  (forall inv, In inv (invoices db) ->
     customer_exists db (invoice_customerId inv) = true) /\
  (forall ii, In ii (invoice_items db) ->
     invoice_exists db (ii_invoiceId ii) = true /\
     product_exists db (ii_productId ii) = true).

(** Line items name products, and phones are distinct: kept by every
    command. *)
Definition products_and_phones (db : Database) : Prop :=
  (forall ii, In ii (invoice_items db) ->
     product_exists db (ii_productId ii) = true) /\
  NoDup (map customer_phone (customers db)).

(** The rows the add-customer and add-product actions insert. *)
Definition new_customer (db : Database) (data : AddCustomerData) : Customer :=
  {| customer_id :=
       next_rowid (seq_customers db) (map customer_id (customers db));
     customer_name := ac_name data;
     customer_phone := ac_phone data;
     customer_email := ac_email data;
     customer_address := ac_address data |}.

Definition new_product (db : Database) (data : AddProductData) : Product :=
  {| product_id := next_rowid (seq_products db) (map product_id (products db));
     product_name := ap_name data;
     product_description := ap_description data;
     product_price := ap_price data;
     product_tax := ap_tax data |}.

(** A number that passes zod's [min(0)] is not NaN. *)
Definition min0_excludes_nan : Prop :=
  forall x : num, num_leb num_zero x = true -> num_is_nan x = false.

(** The rows of the store pass the schemas of the actions that insert
    them. *)
Definition rows_validated (z_email : string -> bool) (db : Database) : Prop :=
  (forall c, In c (customers db) ->
     min1 (customer_name c) = true /\ min1 (customer_phone c) = true /\
     match customer_email c with
     | None => True
     | Some e => z_email e = true \/ e = ""%string
     end) /\
  (forall p, In p (products db) ->
     min1 (product_name p) = true /\
     num_leb num_zero (product_price p) = true /\
     num_leb num_zero (product_tax p) = true).

(** The row the invoices loader makes of an invoice row and the customer
    joined to it. *)
Definition loaded_invoice (db : Database) (i : InvoiceRow) (c : Customer)
  : Invoice :=
  {| inv_id := invoice_id i;
     inv_customerId := invoice_customerId i;
     inv_createdAt := invoice_createdAt i;
     inv_totalAmount := invoice_totalAmount i;
     inv_customerName := customer_name c;
     inv_items := itemsStmt db (invoice_id i) |}.

(** The store after a sequence of commands. *)
Definition run_commands (z_email : string -> bool) (cs : list Command)
  (db : Database) : Database :=
  fold_left (fun d c => run z_email c d) cs db.

End LedgerVocabulary.

Section Ledger.

Context {N : Number}.
Variable z_email : string -> bool.

Lemma extends_refl : forall db : Database, extends db db.
Proof.
  intro db. unfold extends.
  repeat split; try (exists []; rewrite app_nil_r; reflexivity); lia.
Qed.

Lemma extends_trans : forall a b c : Database,
  extends a b -> extends b c -> extends a c.
Proof.
  intros a b c
    ((r1 & H1) & (r2 & H2) & (r3 & H3) & (r4 & H4) & L1 & L2 & L3 & L4)
    ((s1 & K1) & (s2 & K2) & (s3 & K3) & (s4 & K4) & M1 & M2 & M3 & M4).
  unfold extends. repeat split; try lia.
  - exists (r1 ++ s1). rewrite K1, H1, app_assoc. reflexivity.
  - exists (r2 ++ s2). rewrite K2, H2, app_assoc. reflexivity.
  - exists (r3 ++ s3). rewrite K3, H3, app_assoc. reflexivity.
  - exists (r4 ++ s4). rewrite K4, H4, app_assoc. reflexivity.
Qed.

Lemma next_rowid_above : forall seq ids, (seq < next_rowid seq ids)%Z.
Proof.
  intros seq ids. unfold next_rowid. lia.
Qed.

Lemma rowid_max_nonneg : forall ids, (0 <= rowid_max ids)%Z.
Proof.
  induction ids as [|x ids IH]; simpl; lia.
Qed.

Lemma next_rowid_positive : forall seq ids, (0 < next_rowid seq ids)%Z.
Proof.
  intros seq ids. unfold next_rowid.
  pose proof (rowid_max_nonneg ids). lia.
Qed.

(** One statement of the loop extends the store. *)
Lemma insert_invoice_item_extends : forall invoiceId productId q p t db id db',
  insert_invoice_item invoiceId productId q p t db = inr (id, db') ->
  extends db db'.
Proof.
  intros invoiceId productId q p t db id db' H.
  unfold insert_invoice_item in H.
  destruct (num_is_nan q || num_is_nan p || num_is_nan t); [discriminate|].
  destruct (invoice_exists db invoiceId && product_exists db productId);
    [|discriminate].
  inversion H; subst; clear H. unfold extends; simpl.
  repeat split; try (exists []; rewrite app_nil_r; reflexivity);
    try lia.
  - eexists. reflexivity.
  - pose proof (next_rowid_above (seq_invoice_items db)
                  (map ii_id (invoice_items db))). lia.
Qed.

Lemma insert_items_extends : forall items invoiceId db u db',
  insert_items invoiceId items db = inr (u, db') -> extends db db'.
Proof.
  induction items as [|item rest IH]; intros invoiceId db u db' H; simpl in H.
  - unfold ret in H. inversion H; subst. apply extends_refl.
  - unfold bind in H.
    destruct (insert_invoice_item invoiceId (item_id item) (item_quantity item)
                (item_price item) (item_tax item) db) as [e | [id db1]] eqn:H1;
      [discriminate|].
    eapply extends_trans.
    + eapply insert_invoice_item_extends. exact H1.
    + eapply IH. exact H.
Qed.

Lemma insert_invoice_extends : forall customerId now total db id db',
  insert_invoice customerId now total db = inr (id, db') -> extends db db'.
Proof.
  intros customerId now total db id db' H. unfold insert_invoice in H.
  destruct (num_is_nan total); [discriminate|].
  destruct (customer_exists db customerId); [|discriminate].
  inversion H; subst; clear H. unfold extends; simpl.
  repeat split; try (exists []; rewrite app_nil_r; reflexivity);
    try lia.
  - eexists. reflexivity.
  - pose proof (next_rowid_above (seq_invoices db)
                  (map invoice_id (invoices db))). lia.
Qed.

(** A command extends the store. *)
Lemma run_extends : forall (c : Command) (db : Database),
  extends db (run z_email c db).
Proof.
  intros [data | data | now data] db; simpl.
  - unfold useAddCustomerAction, insert_customer.
    destruct (validAddCustomer z_email data); [|apply extends_refl].
    destruct (existsb _ (customers db)); [apply extends_refl|].
    unfold extends; simpl.
    repeat split; try (exists []; rewrite app_nil_r; reflexivity);
      try lia.
    + eexists. reflexivity.
    + pose proof (next_rowid_above (seq_customers db)
                    (map customer_id (customers db))). lia.
  - unfold useAddProductAction, insert_product.
    destruct (validAddProduct data); [|apply extends_refl].
    destruct (num_is_nan (ap_price data) || num_is_nan (ap_tax data));
      [apply extends_refl|].
    unfold extends; simpl.
    repeat split; try (exists []; rewrite app_nil_r; reflexivity);
      try lia.
    + eexists. reflexivity.
    + pose proof (next_rowid_above (seq_products db)
                    (map product_id (products db))). lia.
  - unfold useCreateInvoiceAction.
    destruct (ci_customerId data) as [customerId|]; [|apply extends_refl].
    destruct (ci_itemsJSON data) as [| | |items]; try apply extends_refl.
    unfold transaction, invoice_transaction, bind.
    destruct (insert_invoice customerId now (totalAmount items) db)
      as [e | [id db1]] eqn:H1; simpl; [apply extends_refl|].
    destruct (insert_items id items db1) as [e | [u db2]] eqn:H2; simpl;
      [apply extends_refl|].
    eapply extends_trans.
    + eapply insert_invoice_extends. exact H1.
    + eapply insert_items_extends. exact H2.
Qed.

(** X1. The store is append-only. Whatever the command and the store, every
    row the store held is still there afterwards, unchanged and in place;
    a command can only add rows after them, and no sequence value goes
    down. *)
Theorem commands_only_append : forall (cs : list Command) (db : Database),
  extends db (run_commands z_email cs db).
Proof.
  induction cs as [|c cs IH]; intro db; simpl.
  - apply extends_refl.
  - eapply extends_trans; [apply run_extends | apply IH].
Qed.

Lemma StronglySorted_snoc : forall (l : list Z) (x : Z),
  StronglySorted Z.lt l -> Forall (fun y => (y < x)%Z) l ->
  StronglySorted Z.lt (l ++ [x]).
Proof.
  intros l x Hs Hlt. induction Hs as [|y l Hs IH Hy]; simpl.
  - constructor; constructor.
  - inversion Hlt; subst. constructor.
    + apply IH. assumption.
    + apply Forall_app. split; [exact Hy | constructor; [assumption | constructor]].
Qed.

Lemma keys_ok_next : forall keys seq,
  keys_ok keys seq ->
  keys_ok (keys ++ [next_rowid seq keys]) (next_rowid seq keys).
Proof.
  intros keys seq [Hs Hb].
  pose proof (next_rowid_above seq keys) as Habove.
  pose proof (next_rowid_positive seq keys) as Hpos.
  split.
  - apply StronglySorted_snoc; [exact Hs|].
    eapply Forall_impl; [|exact Hb]. simpl. intros k Hk. lia.
  - apply Forall_app. split.
    + eapply Forall_impl; [|exact Hb]. simpl. intros k Hk. lia.
    + constructor; [lia | constructor].
Qed.

Lemma insert_invoice_item_well_keyed :
  forall invoiceId productId q p t db id db',
  insert_invoice_item invoiceId productId q p t db = inr (id, db') ->
  well_keyed db -> well_keyed db'.
Proof.
  intros invoiceId productId q p t db id db' H (Hc & Hp & Hi & Hii).
  unfold insert_invoice_item in H.
  destruct (num_is_nan q || num_is_nan p || num_is_nan t); [discriminate|].
  destruct (invoice_exists db invoiceId && product_exists db productId);
    [|discriminate].
  inversion H; subst; clear H. unfold well_keyed; simpl.
  repeat split; try apply Hc; try apply Hp; try apply Hi;
    rewrite map_app; simpl; apply keys_ok_next; exact Hii.
Qed.

Lemma insert_items_well_keyed : forall items invoiceId db u db',
  insert_items invoiceId items db = inr (u, db') ->
  well_keyed db -> well_keyed db'.
Proof.
  induction items as [|item rest IH]; intros invoiceId db u db' H Hk;
    simpl in H.
  - unfold ret in H. inversion H; subst. exact Hk.
  - unfold bind in H.
    destruct (insert_invoice_item invoiceId (item_id item) (item_quantity item)
                (item_price item) (item_tax item) db) as [e | [id db1]] eqn:H1;
      [discriminate|].
    eapply IH; [exact H|].
    eapply insert_invoice_item_well_keyed; eassumption.
Qed.

Lemma insert_invoice_well_keyed : forall customerId now total db id db',
  insert_invoice customerId now total db = inr (id, db') ->
  well_keyed db -> well_keyed db'.
Proof.
  intros customerId now total db id db' H (Hc & Hp & Hi & Hii).
  unfold insert_invoice in H.
  destruct (num_is_nan total); [discriminate|].
  destruct (customer_exists db customerId); [|discriminate].
  inversion H; subst; clear H. unfold well_keyed; simpl.
  repeat split; try apply Hc; try apply Hp; try apply Hii;
    rewrite map_app; simpl; apply keys_ok_next; exact Hi.
Qed.

Lemma well_keyed_run : forall c db,
  well_keyed db -> well_keyed (run z_email c db).
Proof.
  intros [data | data | now data] db Hk; simpl.
  - unfold useAddCustomerAction, insert_customer.
    destruct (validAddCustomer z_email data); [|exact Hk].
    destruct (existsb _ (customers db)); [exact Hk|].
    destruct Hk as (Hc & Hp & Hi & Hii). unfold well_keyed; simpl.
    repeat split; try apply Hp; try apply Hi; try apply Hii;
      rewrite map_app; simpl; apply keys_ok_next; exact Hc.
  - unfold useAddProductAction, insert_product.
    destruct (validAddProduct data); [|exact Hk].
    destruct (num_is_nan (ap_price data) || num_is_nan (ap_tax data));
      [exact Hk|].
    destruct Hk as (Hc & Hp & Hi & Hii). unfold well_keyed; simpl.
    repeat split; try apply Hc; try apply Hi; try apply Hii;
      rewrite map_app; simpl; apply keys_ok_next; exact Hp.
  - unfold useCreateInvoiceAction.
    destruct (ci_customerId data) as [customerId|]; [|exact Hk].
    destruct (ci_itemsJSON data) as [| | |items]; try exact Hk.
    unfold transaction, invoice_transaction, bind.
    destruct (insert_invoice customerId now (totalAmount items) db)
      as [e | [id db1]] eqn:H1; simpl; [exact Hk|].
    destruct (insert_items id items db1) as [e | [u db2]] eqn:H2; simpl;
      [exact Hk|].
    eapply insert_items_well_keyed; [exact H2|].
    eapply insert_invoice_well_keyed; eassumption.
Qed.

Lemma reachable_keys : forall db : Database,
  reachable z_email db -> well_keyed db.
Proof.
  intros db H. induction H as [|db c _ IH].
  - unfold well_keyed, keys_ok. simpl.
    repeat split; constructor.
  - apply well_keyed_run. exact IH.
Qed.

Lemma keys_distinct : forall keys seq, keys_ok keys seq -> NoDup keys.
Proof.
  intros keys seq [Hs _]. induction Hs as [|k keys Hs IH Hk]; constructor.
  - intro Hin. rewrite Forall_forall in Hk. specialize (Hk _ Hin). lia.
  - exact IH.
Qed.

Lemma NoDup_snoc : forall (A : Type) (l : list A) (x : A),
  NoDup l -> ~ In x l -> NoDup (l ++ [x]).
Proof.
  intros A l x Hl Hx. induction Hl as [|y l Hy _ IH]; simpl.
  - constructor; [intros [] | constructor].
  - constructor.
    + intro Hin. apply in_app_or in Hin. destruct Hin as [Hin | [<- | []]].
      * contradiction.
      * apply Hx. left. reflexivity.
    + apply IH. intro Hin. apply Hx. right. exact Hin.
Qed.

Lemma products_and_phones_run : forall c db,
  products_and_phones db -> products_and_phones (run z_email c db).
Proof.
  intros [data | data | now data] db [Hp Hph]; simpl.
  - unfold useAddCustomerAction, insert_customer.
    destruct (validAddCustomer z_email data); [|split; assumption].
    destruct (existsb _ (customers db)) eqn:Hex; [split; assumption|].
    split; simpl; [exact Hp|].
    rewrite map_app. simpl. apply NoDup_snoc; [exact Hph|].
    intro Hin. apply in_map_iff in Hin. destruct Hin as (c & Hc & Hin).
    assert (existsb (fun c0 => String.eqb (customer_phone c0) (ac_phone data))
                    (customers db) = true) as Htrue.
    { apply existsb_exists. exists c. split; [exact Hin|].
      apply String.eqb_eq. exact Hc. }
    congruence.
  - unfold useAddProductAction, insert_product.
    destruct (validAddProduct data); [|split; assumption].
    destruct (num_is_nan (ap_price data) || num_is_nan (ap_tax data));
      [split; assumption|].
    split; simpl; [|exact Hph].
    intros ii Hin. unfold product_exists. simpl.
    apply existsb_app_l. apply Hp. exact Hin.
  - destruct data as [[customerId|] json]; [|split; assumption].
    destruct json as [| | |items]; try (split; assumption).
    destruct (createInvoice_cases now customerId items db)
      as [(Hok & db' & rows & Hrun & Hc & Hpr & _ & Hii & Hrows)
         |(_ & cause & Hrun)];
      unfold invoice_request in Hrun; rewrite Hrun; simpl;
      [|split; assumption].
    assert (forall k, product_exists db' k = product_exists db k) as Hsame.
    { intro k. unfold product_exists. rewrite Hpr. reflexivity. }
    unfold products_and_phones. rewrite Hc, Hii.
    split; [|exact Hph].
    intros ii Hin. rewrite Hsame.
    apply in_app_or in Hin. destruct Hin as [Hin | Hin].
    + apply Hp. exact Hin.
    + unfold accepted in Hok. apply andb_prop in Hok.
      destruct Hok as [_ Hknown]. unfold products_known in Hknown.
      rewrite forallb_forall in Hknown.
      clear - Hrows Hin Hknown.
      induction Hrows as [|item row items rows Hrow _ IH].
      * contradiction.
      * destruct Hin as [<- | Hin].
        -- destruct Hrow as (_ & -> & _). apply Hknown. left. reflexivity.
        -- apply IH; [|exact Hin]. intros x Hx. apply Hknown. right. exact Hx.
Qed.

Lemma reachable_products_and_phones : forall db : Database,
  reachable z_email db -> products_and_phones db.
Proof.
  intros db H. induction H as [|db c _ IH].
  - split; simpl; [intros ? [] | constructor].
  - apply products_and_phones_run. exact IH.
Qed.

(** X2. Keys. In every store the commands reach, the keys of each of the
    four tables are positive, strictly increasing in insertion order and at
    most the sequence value the store keeps for the table; so no two rows of
    a table share a key, and a key is never given twice. *)
Theorem keys_increase : forall db : Database,
  reachable z_email db ->
  well_keyed db /\
  NoDup (map customer_id (customers db)) /\
  NoDup (map product_id (products db)) /\
  NoDup (map invoice_id (invoices db)) /\
  NoDup (map ii_id (invoice_items db)).
Proof.
  intros db H. pose proof (reachable_keys H) as Hk. split; [exact Hk|].
  destruct Hk as (Hc & Hp & Hi & Hii).
  repeat split; eapply keys_distinct; eassumption.
Qed.

(** X3. Referential integrity and distinct phones. In every store the
    commands reach, every invoice names a customer of the store, every line
    item names an invoice and a product of the store, and no two customers
    have the same phone number. *)
Theorem reachable_referential : forall db : Database,
  reachable z_email db ->
  referential db /\ NoDup (map customer_phone (customers db)).
Proof.
  intros db H.
  pose proof (reachable_products_and_phones H) as [Hp Hph].
  pose proof (reachable_keyed H) as [_ Hcust].
  pose proof (reachable_consistent H) as [Hinv _].
  split; [|exact Hph]. split; [exact Hcust|].
  intros ii Hin. split; [apply Hinv | apply Hp]; exact Hin.
Qed.

(** *** Adding and finding customers and products *)

Lemma NoDup_map_eq : forall (A B : Type) (f : A -> B) (l : list A) a b,
  NoDup (map f l) -> In a l -> In b l -> f a = f b -> a = b.
Proof.
  intros A B f l a b Hnd. induction l as [|x l IH]; simpl; intros Ha Hb Heq.
  - contradiction.
  - inversion Hnd as [|? ? Hx Hl]; subst.
    destruct Ha as [-> | Ha], Hb as [-> | Hb].
    + reflexivity.
    + exfalso. apply Hx. rewrite Heq. apply in_map. exact Hb.
    + exfalso. apply Hx. rewrite <- Heq. apply in_map. exact Ha.
    + apply IH; assumption.
Qed.

Lemma loaded_customer : forall (db : Database) c,
  In c (useCustomersLoader db) <-> In c (customers db).
Proof.
  intros db c. unfold useCustomersLoader. split; intro H.
  - eapply Permutation_in; [apply order_by_perm | exact H].
  - eapply Permutation_in; [apply Permutation_sym, order_by_perm | exact H].
Qed.

Lemma loaded_product : forall (db : Database) p,
  In p (useProductsLoader db) <-> In p (products db).
Proof.
  intros db p. unfold useProductsLoader. split; intro H.
  - eapply Permutation_in; [apply order_by_perm | exact H].
  - eapply Permutation_in; [apply Permutation_sym, order_by_perm | exact H].
Qed.

(** X4. A customer added is a customer found. When the form data pass
    validation and the phone number is not in use, the add-customer action
    returns, appends exactly one row with the data and a new key, leaves the
    other tables alone, and a search for that phone number over the
    reloaded customer list finds that row. *)
Theorem added_customer_is_found : forall data (db : Database),
  validAddCustomer z_email data = true ->
  phone_in_use db (ac_phone data) = false ->
  exists db',
    useAddCustomerAction z_email data db = (db', Returned tt) /\
    customers db' = customers db ++ [new_customer db data] /\
    products db' = products db /\
    invoices db' = invoices db /\
    invoice_items db' = invoice_items db /\
    findCustomer (useCustomersLoader db') (ac_phone data)
      = found_customer (new_customer db data).
Proof.
  intros data db Hv Hfree.
  unfold useAddCustomerAction, insert_customer. rewrite Hv.
  unfold phone_in_use in Hfree. rewrite Hfree.
  eexists. split; [reflexivity|]. simpl.
  repeat split.
  unfold findCustomer.
  match goal with |- context [find ?f ?l] => destruct (find f l) as [c|] eqn:Hf end.
  - apply find_some in Hf. destruct Hf as [Hin Hph].
    apply String.eqb_eq in Hph.
    apply loaded_customer in Hin. simpl in Hin.
    apply in_app_or in Hin. destruct Hin as [Hin | [<- | []]]; [|reflexivity].
    exfalso.
    assert (existsb (fun c0 => String.eqb (customer_phone c0) (ac_phone data))
                    (customers db) = true) as Htrue.
    { apply existsb_exists. exists c. split; [exact Hin|].
      apply String.eqb_eq. exact Hph. }
    congruence.
  - exfalso.
    eapply find_none with (x := new_customer db data) in Hf.
    + simpl in Hf. rewrite String.eqb_refl in Hf. discriminate.
    + apply loaded_customer. simpl. apply in_or_app. right. left. reflexivity.
Qed.

(** X5. Finding a customer by phone. In every store the commands reach, the
    search of the customers tab over the loaded customer list finds a
    customer exactly when a row has that phone number, and then it is the
    only such row; it answers ['not_found'] exactly when no row has it. *)
Theorem find_by_phone : forall (db : Database) (phone : string),
  reachable z_email db ->
  match findCustomer (useCustomersLoader db) phone with
  | found_customer c =>
      In c (customers db) /\ customer_phone c = phone /\
      forall c', In c' (customers db) -> customer_phone c' = phone -> c' = c
  | not_found =>
      forall c, In c (customers db) -> customer_phone c <> phone
  | nothing_searched => False
  end.
Proof.
  intros db phone Hreach.
  pose proof (reachable_products_and_phones Hreach) as [_ Hph].
  unfold findCustomer.
  match goal with |- context [find ?f ?l] => destruct (find f l) as [c|] eqn:Hf end.
  - apply find_some in Hf. destruct Hf as [Hin Heq].
    apply String.eqb_eq in Heq. apply loaded_customer in Hin.
    split; [exact Hin|]. split; [exact Heq|].
    intros c' Hin' Heq'.
    apply (NoDup_map_eq customer_phone (customers db)); try assumption.
    congruence.
  - intros c Hin Heq.
    eapply find_none with (x := c) in Hf.
    + apply String.eqb_neq in Hf. contradiction.
    + apply loaded_customer. exact Hin.
Qed.

(** X6. Adding a product never throws. Provided a number that passes
    [min(0)] is not NaN (so in exact arithmetic and in binary64), the
    add-product action has two ends only: the data pass validation, one row
    with the data and a new key is appended, nothing else changes and the
    reloaded product list holds the row; or they do not and the store is
    untouched. *)
Theorem addProduct_never_throws : forall data (db : Database),
  min0_excludes_nan ->
  (validAddProduct data = true /\
   exists db',
     useAddProductAction data db = (db', Returned tt) /\
     products db' = products db ++ [new_product db data] /\
     customers db' = customers db /\
     invoices db' = invoices db /\
     invoice_items db' = invoice_items db /\
     In (new_product db data) (useProductsLoader db'))
  \/
  (validAddProduct data = false /\
   useAddProductAction data db = (db, ValidationFailed)).
Proof.
  intros data db Hlaw.
  unfold useAddProductAction, insert_product.
  destruct (validAddProduct data) eqn:Hv; [left | right; auto].
  split; [reflexivity|].
  unfold validAddProduct in Hv.
  apply andb_prop in Hv. destruct Hv as [Hv Ht].
  apply andb_prop in Hv. destruct Hv as [_ Hp].
  rewrite (Hlaw _ Hp), (Hlaw _ Ht). simpl.
  eexists. split; [reflexivity|]. simpl. repeat split.
  apply loaded_product. simpl. apply in_or_app. right. left. reflexivity.
Qed.

Lemma rows_validated_run : forall c (db : Database),
  rows_validated z_email db -> rows_validated z_email (run z_email c db).
Proof.
  intros [data | data | now data] db [Hc Hp]; simpl.
  - unfold useAddCustomerAction, insert_customer.
    destruct (validAddCustomer z_email data) eqn:Hv; [|split; assumption].
    destruct (existsb _ (customers db)); [split; assumption|].
    split; simpl; [|exact Hp].
    intros c Hin. apply in_app_or in Hin.
    destruct Hin as [Hin | [<- | []]]; [apply Hc; exact Hin|].
    simpl. unfold validAddCustomer in Hv.
    apply andb_prop in Hv. destruct Hv as [Hv He].
    apply andb_prop in Hv. destruct Hv as [Hn Hph].
    repeat split; try assumption.
    destruct (ac_email data) as [e|]; [|exact I].
    apply orb_prop in He. destruct He as [He | He]; [left; exact He|].
    right. apply String.eqb_eq. exact He.
  - unfold useAddProductAction, insert_product.
    destruct (validAddProduct data) eqn:Hv; [|split; assumption].
    destruct (num_is_nan (ap_price data) || num_is_nan (ap_tax data));
      [split; assumption|].
    split; simpl; [exact Hc|].
    intros p Hin. apply in_app_or in Hin.
    destruct Hin as [Hin | [<- | []]]; [apply Hp; exact Hin|].
    simpl. unfold validAddProduct in Hv.
    apply andb_prop in Hv. destruct Hv as [Hv Ht].
    apply andb_prop in Hv. destruct Hv as [Hn Hpr].
    repeat split; assumption.
  - destruct data as [[customerId|] json]; [|split; assumption].
    destruct json as [| | |items]; try (split; assumption).
    destruct (createInvoice_cases now customerId items db)
      as [(_ & db' & rows & Hrun & Hcs & Hps & _)|(_ & cause & Hrun)];
      unfold invoice_request in Hrun; rewrite Hrun; simpl;
      [|split; assumption].
    unfold rows_validated. rewrite Hcs, Hps. split; assumption.
Qed.

Lemma reachable_validated : forall db : Database,
  reachable z_email db -> rows_validated z_email db.
Proof.
  intros db H. induction H as [|db c _ IH].
  - split; simpl; intros ? [].
  - apply rows_validated_run. exact IH.
Qed.

Lemma run_commands_reachable : forall cs (db : Database),
  reachable z_email db -> reachable z_email (run_commands z_email cs db).
Proof.
  induction cs as [|c cs IH]; intros db H; simpl.
  - exact H.
  - apply IH. apply reachable_run. exact H.
Qed.

(** X7. Stored rows are validated rows. After any sequence of commands on
    the empty store, every customer has a non-empty name and phone and an
    e-mail that is absent, empty or accepted by zod's pattern, and every
    product has a non-empty name and a price and a tax that pass
    [min(0)]. *)
Theorem stored_rows_validated : forall cs : list Command,
  rows_validated z_email (run_commands z_email cs empty_db).
Proof.
  intro cs. apply reachable_validated. apply run_commands_reachable.
  apply reachable_empty.
Qed.

(** *** The history *)

Lemma product_joined_once : forall (ps : list Product) (k : Z),
  NoDup (map product_id ps) ->
  existsb (fun p => Z.eqb (product_id p) k) ps = true ->
  exists p, filter (fun p => Z.eqb k (product_id p)) ps = [p] /\
            In p ps /\ product_id p = k.
Proof.
  induction ps as [|p0 ps IH]; simpl; intros k Hnd Hex.
  - discriminate.
  - inversion Hnd as [|? ? Hnotin Hnd']; subst.
    destruct (Z.eqb_spec k (product_id p0)) as [-> | Hne].
    + exists p0. split; [|split; [left; reflexivity | reflexivity]].
      f_equal. apply filter_drops. apply Forall_forall.
      intros p Hp. apply Z.eqb_neq. intro Heq. apply Hnotin.
      rewrite Heq. apply in_map. exact Hp.
    + destruct (Z.eqb_spec (product_id p0) k) as [Heq | _]; [congruence|].
      simpl in Hex. destruct (IH k Hnd' Hex) as (p & Hf & Hin & Hk).
      exists p. split; [exact Hf|]. split; [right; exact Hin | exact Hk].
Qed.

Lemma flat_map_ext_in : forall (A B : Type) (f g : A -> list B) (l : list A),
  (forall a, In a l -> f a = g a) -> flat_map f l = flat_map g l.
Proof.
  intros A B f g l H. induction l as [|a l IH]; simpl.
  - reflexivity.
  - rewrite (H a (or_introl eq_refl)), IH; [reflexivity|].
    intros x Hx. apply H. right. exact Hx.
Qed.

(** The history rows of an invoice match its stored line items, one to one. *)
Lemma history_rows : forall (db : Database) (invoiceId : Z),
  reachable z_email db ->
  Forall2
    (fun h ii =>
       exists p, In p (products db) /\ product_id p = ii_productId ii /\
                 h = history_item p ii)
    (itemsStmt db invoiceId) (items_of db invoiceId).
Proof.
  intros db invoiceId Hreach.
  pose proof (reachable_products_and_phones Hreach) as [Hprod _].
  pose proof (reachable_keys Hreach) as (_ & Hpk & _).
  apply keys_distinct in Hpk.
  unfold itemsStmt, items_of.
  assert (forall ii,
            In ii (filter (fun ii => Z.eqb (ii_invoiceId ii) invoiceId)
                          (invoice_items db)) ->
            product_exists db (ii_productId ii) = true) as Hrows.
  { intros ii Hin. apply filter_In in Hin. apply Hprod. apply Hin. }
  induction (filter (fun ii => Z.eqb (ii_invoiceId ii) invoiceId)
                    (invoice_items db)) as [|ii rows IH]; simpl.
  - constructor.
  - destruct (product_joined_once (products db) (ii_productId ii) Hpk)
      as (p & Hf & Hin & Hk).
    + apply Hrows. left. reflexivity.
    + rewrite Hf. simpl. constructor.
      * exists p. repeat split; assumption.
      * apply IH. intros x Hx. apply Hrows. right. exact Hx.
Qed.

(** X8. One history row per line item. In every store the commands reach,
    the items the history shows for an invoice are its stored line items,
    one row each and in the same order, none left out and none doubled:
    each row carries its line item's quantity, price and tax and the name
    and description of the product the line item names. *)
Theorem history_row_per_item : forall (db : Database) (invoiceId : Z),
  reachable z_email db ->
  Forall2
    (fun h ii =>
       exists p, In p (products db) /\ product_id p = ii_productId ii /\
                 h = history_item p ii)
    (itemsStmt db invoiceId) (items_of db invoiceId) /\
  map snapshot (itemsStmt db invoiceId)
  = map (fun ii => (ii_quantity ii, ii_priceAtSale ii, ii_taxAtSale ii))
        (items_of db invoiceId).
Proof.
  intros db invoiceId Hreach.
  pose proof (history_rows invoiceId Hreach) as H. split; [exact H|].
  induction H as [|h ii hs rows (p & _ & _ & ->) _ IH]; simpl.
  - reflexivity.
  - rewrite IH. reflexivity.
Qed.

Lemma In_useInvoicesLoader : forall (db : Database) inv,
  In inv (useInvoicesLoader db) <->
  exists i c,
    In i (invoices db) /\ In c (customers db) /\
    invoice_customerId i = customer_id c /\ inv = loaded_invoice db i c.
Proof.
  intros db inv. unfold useInvoicesLoader, invoices_query. split.
  - intro Hin. apply in_map_iff in Hin. destruct Hin as ([i c] & <- & Hin).
    eapply Permutation_in in Hin; [|apply order_by_perm].
    apply in_flat_map in Hin. destruct Hin as (i' & Hi & Hin).
    apply in_map_iff in Hin. destruct Hin as (c' & Heq & Hc).
    inversion Heq; subst. apply filter_In in Hc. destruct Hc as [Hc Hid].
    apply Z.eqb_eq in Hid. exists i, c. repeat split; assumption.
  - intros (i & c & Hi & Hc & Hid & ->).
    apply in_map_iff. exists (i, c). split; [reflexivity|].
    eapply Permutation_in; [apply Permutation_sym, order_by_perm|].
    apply in_flat_map. exists i. split; [exact Hi|].
    apply in_map_iff. exists c. split; [reflexivity|].
    apply filter_In. split; [exact Hc | apply Z.eqb_eq; exact Hid].
Qed.

(** The items shown for an invoice of the store are the same after any
    command. *)
Lemma itemsStmt_run : forall c (db : Database) i,
  reachable z_email db -> In i (invoices db) ->
  itemsStmt (run z_email c db) (invoice_id i) = itemsStmt db (invoice_id i).
Proof.
  intros c db i Hreach Hi.
  pose proof (reachable_products_and_phones Hreach) as [Hprod _].
  destruct c as [data | data | now data]; simpl.
  - unfold useAddCustomerAction, insert_customer.
    destruct (validAddCustomer z_email data); [|reflexivity].
    destruct (existsb _ (customers db)); reflexivity.
  - unfold useAddProductAction, insert_product.
    destruct (validAddProduct data); [|reflexivity].
    destruct (num_is_nan (ap_price data) || num_is_nan (ap_tax data));
      [reflexivity|].
    unfold itemsStmt. simpl. apply flat_map_ext_in. intros ii Hin.
    apply filter_In in Hin. destruct Hin as [Hin _].
    rewrite filter_app, map_app. simpl.
    assert (Z.eqb (ii_productId ii)
              (next_rowid (seq_products db) (map product_id (products db)))
            = false) as Hnew.
    { apply Z.eqb_neq. apply Hprod in Hin. unfold product_exists in Hin.
      apply existsb_exists in Hin. destruct Hin as (p & Hp & Heq).
      apply Z.eqb_eq in Heq. rewrite <- Heq.
      pose proof (next_rowid_fresh (seq_products db)
                    (map product_id (products db)) (product_id p)
                    (in_map product_id _ _ Hp)). lia. }
    rewrite Hnew. simpl. rewrite app_nil_r. reflexivity.
  - destruct data as [[customerId|] json]; [|reflexivity].
    destruct json as [| | |items]; try reflexivity.
    destruct (createInvoice_cases now customerId items db)
      as [(_ & db' & rows & Hrun & _ & Hps & _ & Hii & Hrows)
         |(_ & cause & Hrun)];
      unfold invoice_request in Hrun; rewrite Hrun; simpl; [|reflexivity].
    unfold itemsStmt. rewrite Hps, Hii, filter_app.
    rewrite (@filter_drops _ _ rows).
    + rewrite app_nil_r. reflexivity.
    + pose proof (rows_of_invoice Hrows) as Hown.
      eapply Forall_impl; [|exact Hown]. intros r Hr. simpl in Hr.
      rewrite Hr. apply Z.eqb_neq.
      pose proof (new_invoice_id_fresh db i Hi). lia.
Qed.

(** X9. History is permanent. In every store the commands reach, an invoice
    the invoices loader returns is returned after any further command with
    the same key, customer, date, total, customer name and items. *)
Theorem history_is_permanent : forall c (db : Database) inv,
  reachable z_email db ->
  In inv (useInvoicesLoader db) ->
  In inv (useInvoicesLoader (run z_email c db)).
Proof.
  intros c db inv Hreach Hin.
  apply In_useInvoicesLoader in Hin.
  destruct Hin as (i & cu & Hi & Hc & Hid & ->).
  apply In_useInvoicesLoader.
  destruct (run_extends c db) as ((cs & Hcs) & _ & (ivs & His) & _).
  exists i, cu. split; [rewrite His; apply in_or_app; left; exact Hi|].
  split; [rewrite Hcs; apply in_or_app; left; exact Hc|].
  split; [exact Hid|].
  unfold loaded_invoice. rewrite (@itemsStmt_run c db i Hreach Hi). reflexivity.
Qed.

End Ledger.

(** ** The invoice in progress *)

Section PageVocabulary.

Context {N : Number} {P : PageNumber N}.

(** The item of the invoice in progress for a product key: what
    [items.find(i => i.id === id)] returns. *)
Definition item_with (id : Z) (items : list InvoiceItem) : option InvoiceItem :=
  find (fun item => Z.eqb (item_id item) id) items.

(** The page after a sequence of events. *)
Definition page_after (es : list PageEvent) (page : PageState) : PageState :=
  fold_left (fun p e => page_step e p) es page.

(** The customer and the products of an event are rows the loaders of [db]
    returned: the Select button passes a customer found in the loaded list,
    the Add to Invoice button the product of its row. *)
Definition loaded_event (db : Database) (e : PageEvent) : Prop :=
  match e with
  | SelectCustomer customer => In customer (useCustomersLoader db)
  | AddToInvoice product => In product (useProductsLoader db)
  | _ => True
  end.

(** A store and a page of one run of the application: commands reach the
    store, from this page or from elsewhere, and events reach the page, with
    rows loaded from the store as it is then. *)
Inductive session (z_email : string -> bool) : Database -> PageState -> Prop :=
| session_start : session z_email empty_db initial_page
| session_command : forall db page c,
    session z_email db page -> session z_email (run z_email c db) page
| session_event : forall db page e,
    session z_email db page -> loaded_event db e ->
    session z_email db (page_step e page).

(** The customer and the products of the invoice in progress are rows of
    the store. *)
Definition from_store (db : Database) (st : InvoiceState) : Prop :=
  (forall customer, state_customer st = Some customer ->
     In customer (customers db)) /\
  (forall item, In item (state_items st) ->
     In (item_product item) (products db)).

End PageVocabulary.

Section PageProperties.

Context {N : Number} {P : PageNumber N}.
Local Open Scope num_scope.

Lemma item_with_none : forall id (items : list InvoiceItem),
  item_with id items = None <-> ~ In id (map item_id items).
Proof.
  intros id items. unfold item_with. induction items as [|item rest IH]; simpl.
  - split; [intros _ [] | reflexivity].
  - destruct (Z.eqb_spec (item_id item) id) as [Heq | Hne].
    + split; [discriminate | intro H; exfalso; apply H; left; exact Heq].
    + rewrite IH. split.
      * intros H [Heq | Hin]; [contradiction | apply H; exact Hin].
      * intros H Hin. apply H. right. exact Hin.
Qed.

Lemma increment_quantity_keeps : forall id (items : list InvoiceItem),
  map item_product (increment_quantity id items) = map item_product items.
Proof.
  intros id items. induction items as [|item rest IH]; simpl.
  - reflexivity.
  - destruct (Z.eqb (item_id item) id); simpl; [reflexivity|].
    rewrite IH. reflexivity.
Qed.

Lemma set_quantity_keeps : forall id q (items : list InvoiceItem),
  map item_product (set_quantity id q items) = map item_product items.
Proof.
  intros id q items. induction items as [|item rest IH]; simpl.
  - reflexivity.
  - destruct (Z.eqb (item_id item) id); simpl; [reflexivity|].
    rewrite IH. reflexivity.
Qed.

Lemma item_ids_of_products : forall items : list InvoiceItem,
  map item_id items = map product_id (map item_product items).
Proof.
  intro items. rewrite map_map. reflexivity.
Qed.

Lemma add_item_products : forall product (items : list InvoiceItem),
  map item_product (add_item product items)
  = match item_with (product_id product) items with
    | Some _ => map item_product items
    | None => map item_product items ++ [product]
    end.
Proof.
  intros product items. unfold add_item, item_with.
  destruct (find _ items).
  - apply increment_quantity_keeps.
  - rewrite map_app. reflexivity.
Qed.

Lemma add_item_distinct : forall product (items : list InvoiceItem),
  NoDup (map item_id items) -> NoDup (map item_id (add_item product items)).
Proof.
  intros product items H.
  rewrite item_ids_of_products, add_item_products.
  destruct (item_with (product_id product) items) eqn:Hw.
  - rewrite <- item_ids_of_products. exact H.
  - rewrite map_app, <- item_ids_of_products. simpl.
    apply NoDup_snoc; [exact H|]. apply item_with_none. exact Hw.
Qed.

Lemma remove_item_distinct : forall id (items : list InvoiceItem),
  NoDup (map item_id items) -> NoDup (map item_id (remove_item id items)).
Proof.
  intros id items H. unfold remove_item.
  induction items as [|item rest IH]; simpl.
  - constructor.
  - inversion H as [|? ? Hnotin Hrest]; subst.
    destruct (negb (Z.eqb (item_id item) id)); simpl.
    + constructor; [|apply IH; exact Hrest].
      intro Hin. apply Hnotin. apply in_map_iff in Hin.
      destruct Hin as (x & Hx & Hin). apply filter_In in Hin.
      apply in_map_iff. exists x. split; [exact Hx | apply Hin].
    + apply IH. exact Hrest.
Qed.

Lemma page_step_distinct : forall e page,
  NoDup (map item_id (state_items (invoiceState page))) ->
  NoDup (map item_id (state_items (invoiceState (page_step e page)))).
Proof.
  intros e page H. destruct e; simpl; try exact H.
  - apply add_item_distinct. exact H.
  - constructor.
  - rewrite item_ids_of_products, set_quantity_keeps,
      <- item_ids_of_products. exact H.
  - apply remove_item_distinct. exact H.
  - destruct value as [|r|err]; simpl; try exact H.
    destruct (success r); [simpl; constructor | exact H].
Qed.

(** X10. Adding a product to the invoice. If the invoice in progress has an
    item with the product's key, [addToInvoice] raises that item's quantity
    by one and keeps what the item recorded of the product (name, price,
    tax) when it was first added, whatever the product passed now says;
    otherwise it appends the product with quantity 1. Items with other keys
    are as before. *)
Theorem add_item_lookup : forall product (items : list InvoiceItem),
  item_with (product_id product) (add_item product items)
  = Some match item_with (product_id product) items with
         | Some old => {| item_product := item_product old;
                          item_quantity := item_quantity old + num_one |}
         | None => {| item_product := product; item_quantity := num_one |}
         end
  /\
  forall id, id <> product_id product ->
    item_with id (add_item product items) = item_with id items.
Proof.
  intros product items. unfold add_item, item_with.
  set (k := product_id product). split.
  - induction items as [|item rest IH]; simpl.
    + unfold item_id. simpl. fold k. rewrite Z.eqb_refl. reflexivity.
    + destruct (Z.eqb (item_id item) k) eqn:Hk; simpl.
      * unfold item_id in *. simpl. rewrite Hk. reflexivity.
      * destruct (find (fun i => Z.eqb (item_id i) k) rest) eqn:Hf; simpl.
        -- rewrite Hk. exact IH.
        -- rewrite Hk. exact IH.
  - intros id Hne. induction items as [|item rest IH]; simpl.
    + unfold item_id. simpl. fold k.
      destruct (Z.eqb_spec k id); [congruence | reflexivity].
    + destruct (Z.eqb (item_id item) k) eqn:Hk; simpl.
      * apply Z.eqb_eq in Hk. unfold item_id at 1. simpl.
        fold (item_id item). rewrite Hk.
        destruct (Z.eqb_spec k id); [congruence|].
        destruct (Z.eqb_spec (item_id item) id); [congruence | reflexivity].
      * destruct (find (fun i => Z.eqb (item_id i) k) rest) eqn:Hf; simpl.
        -- destruct (Z.eqb (item_id item) id); [reflexivity | exact IH].
        -- destruct (Z.eqb (item_id item) id); [reflexivity | exact IH].
Qed.

(** X11. The rows of the invoice in progress have distinct product keys.
    Whatever the events are (selecting, adding, editing a quantity,
    removing, changing the customer, a settled save, a timer), no two items
    of the invoice in progress ever share a product key. *)
Theorem item_keys_distinct : forall es : list PageEvent,
  NoDup (map item_id (state_items (invoiceState (page_after es initial_page)))).
Proof.
  intro es. unfold page_after.
  assert (NoDup (map item_id (state_items (invoiceState initial_page)))) as H
    by constructor.
  revert H. generalize initial_page.
  induction es as [|e es IH]; intros page H; simpl.
  - exact H.
  - apply IH. apply page_step_distinct. exact H.
Qed.

(** X12. Editing a quantity and removing an item. The quantity field
    stores what [parseInt] gave, whatever it is, in the item with that key
    and changes nothing else of it; Remove leaves no item with that key;
    and both leave the items with other keys as they were. *)
Theorem edit_and_remove_lookup : forall id parsed (items : list InvoiceItem),
  (item_with id (set_quantity id parsed items)
   = option_map
       (fun old => {| item_product := item_product old;
                      item_quantity := parsed |})
       (item_with id items) /\
   List.length (set_quantity id parsed items) = List.length items /\
   forall id', id' <> id ->
     item_with id' (set_quantity id parsed items) = item_with id' items)
  /\
  (item_with id (remove_item id items) = None /\
   forall id', id' <> id ->
     item_with id' (remove_item id items) = item_with id' items).
Proof.
  intros id parsed items. unfold item_with, remove_item.
  split; [split; [|split]|split].
  - induction items as [|item rest IH]; simpl; [reflexivity|].
    destruct (Z.eqb (item_id item) id) eqn:Hk; simpl.
    + unfold item_id in *. simpl. rewrite Hk. reflexivity.
    + rewrite Hk. exact IH.
  - induction items as [|item rest IH]; simpl; [reflexivity|].
    destruct (Z.eqb (item_id item) id); simpl; [reflexivity|].
    rewrite IH. reflexivity.
  - intros id' Hne. induction items as [|item rest IH]; simpl; [reflexivity|].
    destruct (Z.eqb (item_id item) id) eqn:Hk; simpl.
    + apply Z.eqb_eq in Hk. unfold item_id at 1. simpl. fold (item_id item).
      destruct (Z.eqb_spec (item_id item) id'); [congruence | reflexivity].
    + destruct (Z.eqb (item_id item) id'); [reflexivity | exact IH].
  - induction items as [|item rest IH]; simpl; [reflexivity|].
    destruct (Z.eqb (item_id item) id) eqn:Hk; simpl; [exact IH|].
    rewrite Hk. exact IH.
  - intros id' Hne. induction items as [|item rest IH]; simpl; [reflexivity|].
    destruct (Z.eqb (item_id item) id) eqn:Hk; simpl.
    + apply Z.eqb_eq in Hk.
      destruct (Z.eqb_spec (item_id item) id'); [congruence | exact IH].
    + destruct (Z.eqb (item_id item) id'); [reflexivity | exact IH].
Qed.

(** *** What the page can send *)

Variable z_email : string -> bool.

Lemma from_store_extends : forall (db db' : Database) st,
  extends db db' -> from_store db st -> from_store db' st.
Proof.
  intros db db' st ((cs & Hcs) & (ps & Hps) & _) [Hc Hi]. split.
  - intros customer H. rewrite Hcs. apply in_or_app. left. apply Hc. exact H.
  - intros item H. rewrite Hps. apply in_or_app. left. apply Hi. exact H.
Qed.

Lemma In_item_product : forall (items items' : list InvoiceItem) item,
  map item_product items' = map item_product items ->
  In item items' ->
  exists old, In old items /\ item_product old = item_product item.
Proof.
  intros items items' item Heq Hin.
  apply (in_map item_product) in Hin. rewrite Heq in Hin.
  apply in_map_iff in Hin. destruct Hin as (old & Hold & Hin).
  exists old. split; assumption.
Qed.

Lemma page_step_from_store : forall (db : Database) e page,
  loaded_event db e ->
  from_store db (invoiceState page) ->
  from_store db (invoiceState (page_step e page)).
Proof.
  intros db e page Hloaded [Hc Hi]. destruct e; simpl; try (split; assumption).
  - split; simpl; [|exact Hi].
    intros c H. inversion H; subst. simpl in Hloaded.
    apply loaded_customer. exact Hloaded.
  - split; simpl; [exact Hc|]. simpl in Hloaded.
    apply loaded_product in Hloaded.
    intros item Hin. apply (in_map item_product) in Hin.
    rewrite add_item_products in Hin.
    destruct (item_with (product_id product) (state_items (invoiceState page))).
    + apply in_map_iff in Hin. destruct Hin as (old & <- & Hold).
      apply Hi. exact Hold.
    + apply in_app_or in Hin. destruct Hin as [Hin | [<- | []]].
      * apply in_map_iff in Hin. destruct Hin as (old & <- & Hold).
        apply Hi. exact Hold.
      * exact Hloaded.
  - split; simpl; [discriminate | intros ? []].
  - split; simpl; [exact Hc|].
    intros item Hin.
    destruct (In_item_product (state_items (invoiceState page))
                (set_quantity id parsed (state_items (invoiceState page)))
                item (set_quantity_keeps id parsed _) Hin)
      as (old & Hold & <-).
    apply Hi. exact Hold.
  - split; simpl; [exact Hc|].
    intros item Hin. unfold remove_item in Hin. apply filter_In in Hin.
    apply Hi. apply Hin.
  - destruct value as [|r|err]; simpl; try (split; assumption).
    destruct (success r); [|split; assumption].
    split; simpl; [discriminate | intros ? []].
Qed.

Lemma session_from_store : forall (db : Database) page,
  session z_email db page ->
  from_store db (invoiceState page) /\
  NoDup (map item_id (state_items (invoiceState page))).
Proof.
  intros db page H. induction H as [|db page c _ [IH1 IH2]|db page e _ [IH1 IH2] He].
  - split; [split; simpl; [discriminate | intros ? []] | constructor].
  - split; [|exact IH2].
    eapply from_store_extends; [apply run_extends | exact IH1].
  - split; [apply page_step_from_store; assumption|].
    apply page_step_distinct. exact IH2.
Qed.

(** The request the form sends is made of rows of the store. *)
Lemma page_request : forall (db : Database) page data,
  session z_email db page ->
  saveInvoice (invoiceState page) = Sends data ->
  exists customer items,
    data = invoice_request (customer_id customer) items /\
    items <> [] /\
    In customer (customers db) /\
    (forall item, In item items -> In (item_product item) (products db)) /\
    NoDup (map item_id items) /\
    accepted db (customer_id customer) items = storable items.
Proof.
  intros db page data Hs Hsend.
  apply session_from_store in Hs. destruct Hs as [[Hc Hi] Hnd].
  unfold saveInvoice in Hsend.
  destruct (state_customer (invoiceState page)) as [customer|] eqn:Hcust;
    [|discriminate].
  destruct (state_items (invoiceState page)) as [|item0 rest] eqn:Hitems;
    [discriminate|].
  destruct (forallb item_json_stable (item0 :: rest)); [|discriminate].
  inversion Hsend; subst; clear Hsend.
  exists customer, (item0 :: rest).
  split; [reflexivity|]. split; [discriminate|].
  specialize (Hc customer eq_refl).
  split; [exact Hc|]. split; [exact Hi|]. split; [exact Hnd|].
  unfold accepted.
  assert (customer_exists db (customer_id customer) = true) as ->.
  { unfold customer_exists. apply existsb_exists. exists customer.
    split; [exact Hc | apply Z.eqb_refl]. }
  assert (products_known db (item0 :: rest) = true) as ->.
  { unfold products_known. apply forallb_forall. intros item Hin.
    unfold product_exists. apply existsb_exists.
    exists (item_product item). split; [apply Hi; exact Hin|].
    apply Z.eqb_refl. }
  rewrite !andb_true_r. reflexivity.
Qed.

(** X13. What the Save Invoice form can send. In a run of the application,
    a request the form sends names a customer of the store as it is then
    and carries at least one item, each item a product row of the store
    (its key, name, price and tax are the row's) with distinct keys. So the
    customer and the products are never what makes the create-invoice
    action refuse it: the action saves the request when [storable] holds of
    its items (no number of an item is NaN, and the total computed from
    them is not NaN), and otherwise reports the failure and leaves the
    store as it was. A request whose numbers the JSON text does not carry
    as they are ([SendsOtherNumbers]) is not one of these. *)
Theorem page_sends_known_rows : forall (db : Database) page data now,
  session z_email db page ->
  saveInvoice (invoiceState page) = Sends data ->
  exists customer items,
    data = invoice_request (customer_id customer) items /\
    items <> [] /\
    In customer (customers db) /\
    (forall item, In item items -> In (item_product item) (products db)) /\
    NoDup (map item_id items) /\
    let result := useCreateInvoiceAction now data db in
    (storable items = true ->
     snd (fst result) = Returned saved /\
     invoices (fst (fst result))
     = invoices db ++ [new_invoice db (customer_id customer) now items]) /\
    (storable items = false ->
     snd (fst result) = Returned not_saved /\ fst (fst result) = db).
Proof.
  intros db page data now Hs Hsend.
  destruct (page_request Hs Hsend)
    as (customer & items & -> & Hne & Hc & Hi & Hnd & Hacc).
  exists customer, items. repeat split; try assumption.
  - destruct (createInvoice_cases now (customer_id customer) items db)
      as [(_ & db' & rows & Hrun & _)|(Hno & _)].
    + rewrite Hrun. reflexivity.
    + congruence.
  - destruct (createInvoice_cases now (customer_id customer) items db)
      as [(_ & db' & rows & Hrun & _ & _ & Hinv & _)|(Hno & _)].
    + rewrite Hrun. exact Hinv.
    + congruence.
  - destruct (createInvoice_cases now (customer_id customer) items db)
      as [(Hyes & _)|(_ & cause & Hrun)].
    + congruence.
    + rewrite Hrun. reflexivity.
  - destruct (createInvoice_cases now (customer_id customer) items db)
      as [(Hyes & _)|(_ & cause & Hrun)].
    + congruence.
    + rewrite Hrun. reflexivity.
Qed.

(** X16. What the page does with the answer. In a run of the application,
    a request the Save Invoice form sends (its numbers carried by the JSON
    text as they are) is answered with one of the two result objects. When
    the answer is the success the store has one more invoice, whose total
    is the one the action computes from the items of the page, and the page
    shows the history with no customer and no item in progress, on the tab
    it was on. When it is the failure the store is as it was and so is the
    page: the invoice in progress is kept and no notification is shown.
    Either way the run goes on. *)
Theorem page_invoice_settles : forall (db : Database) page data now,
  session z_email db page ->
  saveInvoice (invoiceState page) = Sends data ->
  let result := useCreateInvoiceAction now data db in
  let page' := page_step (InvoiceSettled (snd (fst result))) page in
  (snd (fst result) = Returned saved \/
   snd (fst result) = Returned not_saved) /\
  (snd (fst result) = Returned saved ->
   (exists header,
      invoices (fst (fst result)) = invoices db ++ [header] /\
      invoice_totalAmount header
      = totalAmount (state_items (invoiceState page))) /\
   invoiceView page' = history_view /\
   activeTab page' = activeTab page /\
   state_customer (invoiceState page') = None /\
   state_items (invoiceState page') = []) /\
  (snd (fst result) = Returned not_saved ->
   fst (fst result) = db /\ page' = page) /\
  session z_email (fst (fst result)) page'.
Proof.
  intros db page data now Hs Hsend result page'.
  destruct (page_request Hs Hsend)
    as (customer & items & Hdata & _ & _ & _ & _ & _).
  assert (state_items (invoiceState page) = items) as Hsame.
  { unfold saveInvoice in Hsend.
    destruct (state_customer (invoiceState page)); [|discriminate].
    destruct (state_items (invoiceState page)) as [|i0 r]; [discriminate|].
    destruct (forallb item_json_stable (i0 :: r)); [|discriminate].
    rewrite Hdata in Hsend. unfold invoice_request in Hsend.
    inversion Hsend. reflexivity. }
  assert (session z_email (fst (fst result)) page') as Hsession.
  { subst page'. apply session_event; [|exact I].
    subst result.
    apply (session_command (CreateInvoice now data) Hs). }
  subst data.
  destruct (createInvoice_cases now (customer_id customer) items db)
    as [(_ & db' & rows & Hrun & _ & _ & Hinv & _)|(_ & cause & Hrun)];
    subst result page'; rewrite Hrun in *; simpl in *.
  - split; [left; reflexivity|]. split; [|split; [discriminate | exact Hsession]].
    intros _. split.
    + eexists. split; [exact Hinv|]. simpl. rewrite Hsame. reflexivity.
    + repeat split.
  - split; [right; reflexivity|]. split; [discriminate|].
    split; [intros _; split; reflexivity | exact Hsession].
Qed.

End PageProperties.

(** ** Exact arithmetic: the totals as the specification writes them *)

Module Exact.

#[local] Existing Instance ExactQ.
Local Open Scope Q_scope.

Definition Item : Type := @InvoiceItem ExactQ.
Definition Row : Type := @InvoiceItemRow ExactQ.
Definition Header : Type := @InvoiceRow ExactQ.
Definition Store : Type := @Database ExactQ.
Definition Cmd : Type := @Command ExactQ.

(** The sum of [f] over a list. *)
Definition Qsum {A : Type} (f : A -> Q) (l : list A) : Q :=
  fold_right (fun x s => f x + s) 0 l.

(** [quantity * priceAtSale * (1 + taxAtSale/100)] of a stored line item. *)
Definition line_total (r : Row) : Q :=
  ii_quantity r * ii_priceAtSale r * (1 + ii_taxAtSale r / 100).

(** An item with no negative price, quantity or tax. *)
Definition nonneg_item (item : Item) : Prop :=
  0 <= item_price item /\ 0 <= item_quantity item /\ 0 <= item_tax item.

Section Totals.

Variable z_email : string -> bool.

(** The store after a sequence of commands. *)
Definition run_all (cs : list Cmd) (db : Store) : Store :=
  fold_left (fun d c => run z_email c d) cs db.

Lemma fold_left_Qsum : forall (A : Type) (f : A -> Q) (g : Q -> A -> Q),
  (forall acc a, g acc a == acc + f a) ->
  forall l acc, fold_left g l acc == acc + Qsum f l.
Proof.
  intros A f g Hg l. induction l as [|a l IH]; intro acc; simpl.
  - ring.
  - rewrite IH, Hg. ring.
Qed.

Lemma Qsum_ext : forall (A : Type) (f g : A -> Q) l,
  (forall a, f a == g a) -> Qsum f l == Qsum g l.
Proof.
  intros A f g l H. induction l as [|a l IH]; simpl.
  - reflexivity.
  - rewrite IH, H. reflexivity.
Qed.

Lemma Qsum_plus : forall (A : Type) (f g : A -> Q) l,
  Qsum (fun a => f a + g a) l == Qsum f l + Qsum g l.
Proof.
  intros A f g l. induction l as [|a l IH]; simpl.
  - ring.
  - rewrite IH. ring.
Qed.

Lemma subtotal_sum : forall items : list Item,
  subtotal items == Qsum (fun i : Item => item_price i * item_quantity i) items.
Proof.
  intro items. unfold subtotal.
  rewrite (fold_left_Qsum (fun i : Item => item_price i * item_quantity i)).
  - simpl. ring.
  - intros acc a. reflexivity.
Qed.

Lemma totalTax_sum : forall items : list Item,
  totalTax items ==
  Qsum (fun i : Item => item_price i * item_quantity i * item_tax i / 100) items.
Proof.
  intro items. unfold totalTax.
  rewrite (fold_left_Qsum
             (fun i : Item => item_price i * item_quantity i * (item_tax i / 100))).
  - simpl. rewrite Qplus_0_l. apply Qsum_ext. intro a. unfold Qdiv. ring.
  - intros acc a. reflexivity.
Qed.

Lemma totalAmount_sum : forall items : list Item,
  totalAmount items ==
  Qsum (fun i : Item => item_price i * item_quantity i
                 + item_price i * item_quantity i * (item_tax i / 100)) items.
Proof.
  intro items. unfold totalAmount.
  rewrite (fold_left_Qsum
             (fun i : Item => item_price i * item_quantity i
                       + item_price i * item_quantity i * (item_tax i / 100))).
  - simpl. ring.
  - intros acc a. simpl. ring.
Qed.

Lemma preview_is_total : forall items : list Item,
  previewTotal items == totalAmount items.
Proof.
  intro items. unfold previewTotal. simpl.
  rewrite totalAmount_sum, Qsum_plus, subtotal_sum.
  apply Qplus_comp; [reflexivity|].
  unfold totalTax.
  rewrite (fold_left_Qsum
             (fun i : Item => item_price i * item_quantity i * (item_tax i / 100))).
  - simpl. ring.
  - intros acc a. reflexivity.
Qed.

Lemma rows_total_sum : forall rows : list Row,
  rows_total rows == Qsum line_total rows.
Proof.
  intro rows. unfold rows_total.
  rewrite (fold_left_Qsum line_total).
  - simpl. ring.
  - intros acc r. unfold line_total. simpl. unfold Qdiv. ring.
Qed.

(** C3. The total calculator, floating-point tolerance aside: for every list
    of line items, [subtotal] is the sum of [price * quantity], [totalTax]
    the sum of [price * quantity * tax / 100], the total shown their sum, and
    the [totalAmount] the create-invoice action computes equals
    [subtotal + totalTax] of the submitted items. *)
Theorem totals_as_specified : forall items : list Item,
  subtotal items == Qsum (fun i : Item => item_price i * item_quantity i) items /\
  totalTax items ==
    Qsum (fun i : Item => item_price i * item_quantity i * item_tax i / 100)
         items /\
  previewTotal items == subtotal items + totalTax items /\
  totalAmount items == subtotal items + totalTax items.
Proof.
  intro items. split; [|split; [|split]].
  - apply subtotal_sum.
  - apply totalTax_sum.
  - reflexivity.
  - symmetry. exact (preview_is_total items).
Qed.

(** The example of the specification: items
    [{price:100, qty:2, tax:10}, {price:50, qty:1, tax:0}] give
    subtotal 250, tax 20, total 270. *)
Example totals_of_the_example :
  let item p q t : Item :=
    {| item_product :=
         {| product_id := 1; product_name := "p"; product_description := None;
            product_price := p; product_tax := t |};
       item_quantity := q |} in
  let items := [item 100 2 10; item 50 1 0] in
  subtotal items == 250 /\ totalTax items == 20 /\
  previewTotal items == 270 /\ totalAmount items == 270.
Proof.
  cbv zeta. split; [|split; [|split]]; vm_compute; reflexivity.
Qed.

(** C4, as the code has it. In exact arithmetic the total of the preview
    ([subtotal + totalTax]) and the [totalAmount] the create-invoice action
    stores are equal on every item list. *)
Theorem preview_equals_stored_exact : forall items : list Item,
  previewTotal items == totalAmount items.
Proof.
  intro items.
  rewrite totalAmount_sum, Qsum_plus, <- subtotal_sum.
  unfold previewTotal. simpl. apply Qplus_comp; [reflexivity|].
  unfold totalTax.
  rewrite (fold_left_Qsum
             (fun i : Item =>
                item_price i * item_quantity i * (item_tax i / 100))).
  - simpl. ring.
  - intros acc a. reflexivity.
Qed.

(** C2, as the code has it. In every store the commands reach, the
    [totalAmount] an invoice stores is what the fold of the create-invoice
    action gives on the line items stored for it, in the arithmetic the
    program runs in; in exact arithmetic that is the sum, over those line
    items, of [quantity * priceAtSale * (1 + taxAtSale/100)]. It holds for a
    new invoice as soon as the create-invoice action has committed it, and
    no later command breaks it. *)
Theorem stored_total_is_sum :
  (forall (N : Number) (db : @Database N),
     @reachable N z_email db ->
     forall inv : @InvoiceRow N, In inv (invoices db) ->
       invoice_totalAmount inv = rows_total (items_of db (invoice_id inv)))
  /\
  (forall db : Store, reachable z_email db ->
     forall inv, In inv (invoices db) ->
       invoice_totalAmount inv ==
       Qsum line_total (items_of db (invoice_id inv)))
  /\
  (forall (db : Store) now customerId (items : list Item),
     reachable z_email db ->
     let db' := run z_email (CreateInvoice now (invoice_request customerId items)) db in
     snd (fst (useCreateInvoiceAction now (invoice_request customerId items) db))
       = Returned saved ->
     In (new_invoice db customerId now items) (invoices db') /\
     totalAmount items ==
     Qsum line_total (items_of db' (new_invoice_id db))).
Proof.
  assert (forall db : Store, reachable z_email db ->
            forall inv, In inv (invoices db) ->
              invoice_totalAmount inv ==
              Qsum line_total (items_of db (invoice_id inv))) as Hinv.
  { intros db Hreach inv Hin.
    apply (reachable_consistent (N := ExactQ)) in Hreach.
    destruct Hreach as [_ Htot]. rewrite (Htot inv Hin).
    apply rows_total_sum. }
  split; [|split; [exact Hinv|]].
  { intros N db Hreach inv Hin.
    apply reachable_consistent in Hreach. destruct Hreach as [_ Htot].
    apply Htot. exact Hin. }
  intros db now customerId items Hreach db' Hok.
  assert (In (new_invoice db customerId now items) (invoices db')) as Hin.
  { subst db'. simpl.
    destruct (createInvoice_cases now customerId items db)
      as [(_ & d & rows & Hrun & _ & _ & Hi & _)|(_ & cause & Hrun)];
      rewrite Hrun in *; simpl in *.
    - rewrite Hi. apply in_or_app. right. left. reflexivity.
    - discriminate. }
  split; [exact Hin|].
  apply (Hinv db' (reachable_run (CreateInvoice now (invoice_request customerId items)) Hreach)
              _ Hin).
Qed.

Lemma Qplus_nonneg : forall a b : Q, 0 <= a -> 0 <= b -> 0 <= a + b.
Proof.
  intros a b Ha Hb. exact (Qplus_le_compat 0 a 0 b Ha Hb).
Qed.

Lemma totalAmount_nonneg : forall items : list Item,
  Forall nonneg_item items -> 0 <= totalAmount items.
Proof.
  intros items H. unfold totalAmount.
  assert (0 <= @num_zero ExactQ) as Hacc by apply Qle_refl.
  revert Hacc. generalize (@num_zero ExactQ).
  induction H as [|item items (Hp & Hq & Ht) _ IH]; intros acc Hacc; simpl.
  - exact Hacc.
  - apply IH. apply Qplus_nonneg; [apply Qplus_nonneg|].
    + exact Hacc.
    + apply Qmult_le_0_compat; assumption.
    + apply Qmult_le_0_compat; [apply Qmult_le_0_compat; assumption|].
      unfold Qdiv. apply Qmult_le_0_compat; [exact Ht|].
      apply Qinv_le_0_compat. discriminate.
Qed.

End Totals.

End Exact.

(** ** Exact arithmetic: what the page shows and what the store holds *)

Module Till.

Import Exact.
#[local] Existing Instance ExactQ.
#[local] Existing Instance ExactQ_page.
Local Open Scope Q_scope.

Definition Page : Type := @PageState ExactQ.
Definition Shown : Type := @HistoryItem ExactQ.
Definition Listed : Type := @Invoice ExactQ.

(** The total the create view shows in the row of an item. *)
Definition shown (item : Item) : Q :=
  shown_line_total (item_price item) (item_quantity item) (item_tax item).

(** The total the history shows in the row of an item. *)
Definition shown_in_history (h : Shown) : Q :=
  shown_line_total (hi_price h) (hi_quantity h) (hi_tax h).

(** What one more unit of an item adds to the total. *)
Definition unit_total (product : @Product ExactQ) : Q :=
  shown_line_total (product_price product) 1 (product_tax product).

Section Counter.

Variable z_email : string -> bool.

Lemma Qsum_app : forall (A : Type) (f : A -> Q) l l',
  Qsum f (l ++ l') == Qsum f l + Qsum f l'.
Proof.
  intros A f l l'. induction l as [|a l IH]; simpl.
  - ring.
  - rewrite IH. ring.
Qed.

Lemma Qsum_filter : forall (A : Type) (f : A -> Q) (g : A -> bool) l,
  Qsum f l == Qsum f (filter (fun a => negb (g a)) l) + Qsum f (filter g l).
Proof.
  intros A f g l. induction l as [|a l IH]; simpl.
  - ring.
  - destruct (g a); simpl; rewrite IH; ring.
Qed.

(** Rationals are never NaN. *)
Lemma exact_storable : forall items : list Item, storable items = true.
Proof.
  intro items. unfold storable. simpl.
  induction items as [|item rest IH]; simpl; [reflexivity | exact IH].
Qed.

Lemma previewTotal_shown : forall items : list Item,
  previewTotal items == Qsum shown items.
Proof.
  intro items. rewrite preview_is_total, totalAmount_sum.
  apply Qsum_ext. intro a. reflexivity.
Qed.

Lemma Qsum_increment : forall id (items : list Item),
  Qsum shown (increment_quantity id items) ==
  Qsum shown items +
  match item_with id items with
  | Some old => unit_total (item_product old)
  | None => 0
  end.
Proof.
  intros id items. unfold item_with.
  induction items as [|item rest IH]; simpl.
  - ring.
  - destruct (Z.eqb (item_id item) id); simpl.
    + unfold shown, unit_total, shown_line_total, item_price, item_tax.
      simpl. unfold Qdiv. ring.
    + rewrite IH. ring.
Qed.

(** X14. The create view adds up. In exact arithmetic the Total of the
    create view is the sum of the line totals its rows show; adding a
    product raises it by one unit of the item (at the price and tax the item
    holds when it is there already, at the product's otherwise); removing
    an item lowers it by the line totals of the rows removed. *)
Theorem preview_follows_items : forall items : list Item,
  previewTotal items == Qsum shown items /\
  (forall product,
     previewTotal (add_item product items) ==
     previewTotal items +
     match item_with (product_id product) items with
     | Some old => unit_total (item_product old)
     | None => unit_total product
     end) /\
  (forall id,
     previewTotal items ==
     previewTotal (remove_item id items) +
     Qsum shown (filter (fun i => Z.eqb (item_id i) id) items)).
Proof.
  intro items. split; [apply previewTotal_shown|]. split.
  - intro product. rewrite !previewTotal_shown.
    pose proof (Qsum_increment (product_id product) items) as Hinc.
    unfold add_item. unfold item_with in *.
    destruct (find (fun item => Z.eqb (item_id item) (product_id product)) items).
    + exact Hinc.
    + rewrite Qsum_app. simpl.
      unfold shown, unit_total, item_price, item_tax. simpl. ring.
  - intro id. rewrite !previewTotal_shown. unfold remove_item.
    apply (Qsum_filter shown (fun i => Z.eqb (item_id i) id)).
Qed.

Lemma history_sum : forall (db : Store) (hs : list Shown) (rows : list Row),
  Forall2
    (fun h ii =>
       exists p, In p (products db) /\ product_id p = ii_productId ii /\
                 h = history_item p ii)
    hs rows ->
  Qsum line_total rows == Qsum shown_in_history hs.
Proof.
  intros db hs rows H.
  induction H as [|h ii hs rows (p & _ & _ & ->) _ IH]; simpl.
  - reflexivity.
  - rewrite IH. unfold line_total, shown_in_history, shown_line_total.
    simpl. unfold Qdiv. ring.
Qed.

(** X15. The history adds up. In exact arithmetic, in every store the
    commands reach, the Grand Total the history shows for an invoice (the
    stored [totalAmount]) is the sum of the line totals shown in the rows of
    its detail table. *)
Theorem history_totals_add_up : forall (db : Store) (inv : Listed),
  reachable z_email db ->
  In inv (useInvoicesLoader db) ->
  inv_totalAmount inv == Qsum shown_in_history (inv_items inv).
Proof.
  intros db inv Hreach Hin.
  apply In_useInvoicesLoader in Hin.
  destruct Hin as (i & c & Hi & _ & _ & ->). simpl.
  pose proof (reachable_consistent Hreach) as [_ Htot].
  rewrite (Htot i Hi), rows_total_sum.
  eapply history_sum. exact (history_rows (invoice_id i) Hreach).
Qed.

Lemma session_reachable : forall (db : Store) (page : Page),
  session z_email db page -> reachable z_email db.
Proof.
  intros db page H. induction H as [|db page c _ IH|db page e _ IH _].
  - apply reachable_empty.
  - apply reachable_run. exact IH.
  - exact IH.
Qed.

(** X17. Only a negative quantity makes a negative invoice on the page. In
    exact arithmetic, in a run of the application, the items of a request
    the Save Invoice form sends have a non-negative price and tax (they are
    those of product rows, which passed [min(0)]); so the total the action
    stores is non-negative unless some quantity typed in is negative. *)
Theorem page_total_nonneg : forall (db : Store) (page : Page) data,
  session z_email db page ->
  saveInvoice (invoiceState page) = Sends data ->
  exists items : list Item,
    ci_itemsJSON data = ItemsArray items /\
    (forall item, In item items ->
       0 <= item_price item /\ 0 <= item_tax item) /\
    ((forall item, In item items -> 0 <= item_quantity item) ->
     0 <= totalAmount items).
Proof.
  intros db page data Hs Hsend.
  destruct (page_request Hs Hsend)
    as (customer & items & -> & _ & _ & Hi & _ & _).
  pose proof (reachable_validated (session_reachable Hs)) as [_ Hp].
  assert (forall item : Item, In item items ->
            0 <= item_price item /\ 0 <= item_tax item) as Hpt.
  { intros item Hin. destruct (Hp _ (Hi item Hin)) as (_ & Hprice & Htax).
    split; apply Qle_bool_iff; assumption. }
  exists items. split; [reflexivity|]. split; [exact Hpt|].
  intro Hq. apply totalAmount_nonneg. apply Forall_forall.
  intros item Hin. destruct (Hpt item Hin) as [H1 H2].
  repeat split; auto.
Qed.

End Counter.

End Till.

(** ** The sign of a stored total, in either arithmetic *)

Section SignVocabulary.

Context {N : Number}.
Local Open Scope num_scope.

(** [0 <= x], as zod's [min(0)] tests it: false of a negative number and of
    NaN. *)
Definition not_negative (x : num) : Prop := num_leb num_zero x = true.

(** NaN, or not negative. *)
Definition nan_or_not_negative (x : num) : Prop :=
  num_is_nan x = true \/ not_negative x.

(** An item with no negative price, quantity or tax. *)
Definition item_not_negative (item : InvoiceItem) : Prop :=
  not_negative (item_price item) /\
  not_negative (item_quantity item) /\
  not_negative (item_tax item).

(** A command that submits no item with a negative price, quantity or tax. *)
Definition command_not_negative (c : Command) : Prop :=
  match c with
  | CreateInvoice _ data =>
      match ci_itemsJSON data with
      | ItemsArray items => Forall item_not_negative items
      | _ => True
      end
  | _ => True
  end.

(** What the fold of the total needs of the arithmetic: [0] is not negative;
    the sum and the product of two numbers that are not negative, and the
    quotient of one by [100], are not negative, unless they are NaN. *)
Definition sign_rules : Prop :=
  not_negative num_zero /\
  (forall x y, nan_or_not_negative x -> nan_or_not_negative y ->
     nan_or_not_negative (x + y)) /\
  (forall x y, nan_or_not_negative x -> nan_or_not_negative y ->
     nan_or_not_negative (x * y)) /\
  (forall x, nan_or_not_negative x -> nan_or_not_negative (x / num_hundred)).

End SignVocabulary.

Section Signs.

Context {N : Number}.
Variable z_email : string -> bool.
Local Open Scope num_scope.

Lemma totalAmount_sign : forall items : list InvoiceItem,
  sign_rules ->
  Forall item_not_negative items ->
  nan_or_not_negative (totalAmount items).
Proof.
  intros items (Hzero & Hadd & Hmul & Hdiv) H. unfold totalAmount.
  assert (nan_or_not_negative num_zero) as Hacc by (right; exact Hzero).
  revert Hacc. generalize num_zero.
  induction H as [|item items (Hp & Hq & Ht) _ IH]; intros acc Hacc; simpl.
  - exact Hacc.
  - apply IH.
    assert (nan_or_not_negative (item_price item * item_quantity item))
      as Hpq by (apply Hmul; right; assumption).
    apply Hadd; [apply Hadd; assumption|].
    apply Hmul; [exact Hpq|]. apply Hdiv. right. exact Ht.
Qed.

(** A total the store took is not NaN. *)
Lemma accepted_total : forall (db : Database) customerId items,
  accepted db customerId items = true ->
  num_is_nan (totalAmount items) = false.
Proof.
  intros db customerId items H. unfold accepted, storable in H.
  destruct (num_is_nan (totalAmount items)); [discriminate | reflexivity].
Qed.

(** A command leaves the invoices as they are or appends the one header it
    computed, and then the store accepted the request. *)
Lemma run_appends_header : forall (c : Command) (db : Database),
  invoices (run z_email c db) = invoices db \/
  exists now customerId items,
    c = CreateInvoice now (invoice_request customerId items) /\
    accepted db customerId items = true /\
    invoices (run z_email c db)
    = invoices db ++ [new_invoice db customerId now items].
Proof.
  intros [data | data | now data] db; simpl.
  - left. unfold useAddCustomerAction, insert_customer.
    destruct (validAddCustomer z_email data); [|reflexivity].
    destruct (existsb _ (customers db)); reflexivity.
  - left. unfold useAddProductAction, insert_product.
    destruct (validAddProduct data); [|reflexivity].
    destruct (num_is_nan _ || _); reflexivity.
  - destruct data as [[customerId|] json]; [|left; reflexivity].
    destruct json as [| | |items]; try (left; reflexivity).
    destruct (createInvoice_cases now customerId items db)
      as [(Hacc & d & rows & Hrun & _ & _ & Hi & _)|(_ & cause & Hrun)];
      unfold invoice_request in Hrun; rewrite Hrun; simpl.
    + right. exists now, customerId, items.
      split; [reflexivity|]. split; [exact Hacc | exact Hi].
    + left. reflexivity.
Qed.

(** C5, as the code has it. The total a create-invoice stores is the one the
    action computes from the submitted items; the request carries no total.
    The action does not check the items, so a negative total can be stored;
    the stored total is non-negative whenever no submitted item has a
    negative price, quantity or tax: after any sequence of commands that
    submit only such items, every invoice row has [totalAmount >= 0]. This
    holds in every arithmetic that keeps [sign_rules], so in exact
    arithmetic and in binary64, where a total that is NaN is not stored. *)
Theorem stored_total_not_negative :
  sign_rules ->
  (forall (db : Database) now customerId (items : list InvoiceItem),
     let result :=
       useCreateInvoiceAction now (invoice_request customerId items) db in
     snd (fst result) = Returned saved ->
     invoices (fst (fst result))
       = invoices db ++ [new_invoice db customerId now items] /\
     invoice_totalAmount (new_invoice db customerId now items)
       = totalAmount items /\
     (Forall item_not_negative items -> not_negative (totalAmount items)))
  /\
  (forall cs : list Command,
     Forall command_not_negative cs ->
     forall inv, In inv (invoices (run_commands z_email cs empty_db)) ->
       not_negative (invoice_totalAmount inv)).
Proof.
  intro Hrules.
  assert (forall (db : Database) customerId items,
            accepted db customerId items = true ->
            Forall item_not_negative items ->
            not_negative (totalAmount items)) as Hsign.
  { intros db customerId items Hacc Hitems.
    destruct (totalAmount_sign Hrules Hitems) as [Hnan | Hok]; [|exact Hok].
    rewrite (accepted_total _ _ _ Hacc) in Hnan. discriminate. }
  split.
  - intros db now customerId items result Hok. subst result.
    destruct (createInvoice_cases now customerId items db)
      as [(Hacc & d & rows & Hrun & _ & _ & Hi & _)|(_ & cause & Hrun)];
      rewrite Hrun in *; simpl in *.
    + split; [exact Hi|]. split; [reflexivity|].
      apply (Hsign db customerId items Hacc).
    + discriminate.
  - intros cs Hcs.
    assert (forall inv, In inv (invoices empty_db) ->
              not_negative (invoice_totalAmount inv)) as Hdb by (intros ? []).
    revert Hdb. unfold run_commands. generalize empty_db.
    induction Hcs as [|c cs Hc _ IH]; intros db Hdb; simpl.
    + exact Hdb.
    + apply IH. intros inv Hin.
      destruct (run_appends_header c db)
        as [Heq | (now & cid & items & -> & Hacc & Heq)];
        rewrite Heq in Hin.
      * apply Hdb. exact Hin.
      * apply in_app_or in Hin. destruct Hin as [Hin | [<- | []]].
        -- apply Hdb. exact Hin.
        -- simpl. apply (Hsign db cid items Hacc). exact Hc.
Qed.

End Signs.

(** *** The rules of sign in exact arithmetic *)

Lemma exact_sign_rules : @sign_rules ExactQ.
Proof.
  assert (forall x : Q, @nan_or_not_negative ExactQ x -> (0 <= x)%Q) as Hle.
  { intros x [H | H]; [discriminate | apply Qle_bool_iff; exact H]. }
  assert (forall x : Q, (0 <= x)%Q -> @nan_or_not_negative ExactQ x) as Hback.
  { intros x H. right. apply Qle_bool_iff. exact H. }
  split; [reflexivity|]. split; [|split].
  - intros x y Hx Hy. apply Hback.
    exact (Qplus_le_compat 0 x 0 y (Hle x Hx) (Hle y Hy)).
  - intros x y Hx Hy. apply Hback.
    apply Qmult_le_0_compat; [apply Hle; exact Hx | apply Hle; exact Hy].
  - intros x Hx. apply Hback. simpl. unfold Qdiv.
    apply Qmult_le_0_compat; [apply Hle; exact Hx|].
    apply Qinv_le_0_compat. discriminate.
Qed.

(** *** The rules of sign in binary64 *)

(** A binary64 value that is a zero of either sign, positive, [+Infinity]
    or NaN. *)
Definition sf_not_negative (s : spec_float) : bool :=
  match s with
  | S754_finite true _ _ | S754_infinity true => false
  | _ => true
  end.

(** Rounding keeps the sign it is given. *)
Lemma binary_round_aux_sign : forall mx ex lx,
  sf_not_negative (binary_round_aux prec emax false mx ex lx) = true.
Proof.
  intros mx ex lx. unfold binary_round_aux.
  destruct (shr_fexp prec emax mx ex lx) as [mrs e].
  destruct (shr_fexp prec emax _ e loc_Exact) as [mrs' e'].
  destruct (shr_m mrs'); [reflexivity| |reflexivity].
  destruct (Z.leb e' (emax - prec)); reflexivity.
Qed.

Lemma SFmul_sign : forall x y,
  sf_not_negative x = true -> sf_not_negative y = true ->
  sf_not_negative (SFmul prec emax x y) = true.
Proof.
  intros [sx|sx| |sx mx ex] [sy|sy| |sy my ey] Hx Hy;
    try reflexivity;
    try (destruct sx; try discriminate);
    try (destruct sy; try discriminate);
    try reflexivity.
  apply binary_round_aux_sign.
Qed.

Lemma SFadd_sign : forall x y,
  sf_not_negative x = true -> sf_not_negative y = true ->
  sf_not_negative (SFadd prec emax x y) = true.
Proof.
  intros [sx|sx| |sx mx ex] [sy|sy| |sy my ey] Hx Hy;
    try reflexivity;
    try (destruct sx; try discriminate);
    try (destruct sy; try discriminate);
    try reflexivity.
  unfold SFadd, cond_Zopp. simpl Z.add. unfold binary_normalize, binary_round.
  destruct (shl_align _ _ _) as [mz ez].
  apply binary_round_aux_sign.
Qed.

Lemma SFdiv_hundred_sign : forall x,
  sf_not_negative x = true ->
  sf_not_negative (SFdiv prec emax x (Prim2SF 100%float)) = true.
Proof.
  intros x Hx.
  replace (Prim2SF 100%float) with (S754_finite false 7036874417766400 (-46))
    by (vm_compute; reflexivity).
  destruct x as [sx|sx| |sx mx ex].
  - destruct sx; reflexivity.
  - destruct sx; [discriminate | reflexivity].
  - reflexivity.
  - destruct sx; [discriminate|].
    unfold SFdiv.
    destruct (SFdiv_core_binary _ _ _ _ _ _) as [[mz ez] lz].
    apply binary_round_aux_sign.
Qed.

(** Only NaN differs from itself. *)
Lemma SFeqb_refl : forall s, s <> S754_nan -> SFeqb s s = true.
Proof.
  intros [s|s| |s m e] H; try (destruct s; reflexivity).
  - contradiction H. reflexivity.
  - unfold SFeqb, SFcompare. rewrite Z.compare_refl, Pos.compare_refl.
    destruct s; reflexivity.
Qed.

Lemma binary64_sign : forall x : PrimFloat.float,
  @nan_or_not_negative Binary64 x <-> sf_not_negative (Prim2SF x) = true.
Proof.
  intro x. unfold nan_or_not_negative, not_negative. simpl.
  unfold PrimFloat.is_nan.
  rewrite FloatAxioms.leb_spec, FloatAxioms.eqb_spec.
  replace (Prim2SF PrimFloat.zero) with (S754_zero false)
    by (vm_compute; reflexivity).
  destruct (Prim2SF x) as [s|s| |s m e] eqn:Hx.
  - split; [reflexivity | right; reflexivity].
  - destruct s; simpl.
    + split; [intros [H | H]; discriminate | discriminate].
    + split; [reflexivity | right; reflexivity].
  - split; [reflexivity | left; reflexivity].
  - destruct s.
    + split; [|discriminate].
      intros [H | H]; [|discriminate].
      rewrite SFeqb_refl in H; discriminate.
    + split; [reflexivity | right; reflexivity].
Qed.

Lemma binary64_sign_rules : @sign_rules Binary64.
Proof.
  split; [vm_compute; reflexivity|]. split; [|split].
  - intros x y Hx Hy. apply binary64_sign. simpl.
    rewrite FloatAxioms.add_spec.
    apply SFadd_sign; apply binary64_sign; assumption.
  - intros x y Hx Hy. apply binary64_sign. simpl.
    rewrite FloatAxioms.mul_spec.
    apply SFmul_sign; apply binary64_sign; assumption.
  - intros x Hx. apply binary64_sign. simpl.
    rewrite FloatAxioms.div_spec.
    apply SFdiv_hundred_sign. apply binary64_sign. exact Hx.
Qed.

(** ** A shop: the commands run on concrete stores *)

Module Shop.

Import Exact.
Local Open Scope Q_scope.
Local Open Scope string_scope.

(** No request below carries an e-mail text, so zod's pattern is never
    consulted; this one stands for it. *)
Definition email_pattern (s : string) : bool := negb (String.eqb s "").

Definition alice : AddCustomerData :=
  {| ac_name := "Alice"; ac_phone := "555-0100"; ac_email := None;
     ac_address := None |}.

(** Name, description, price, tax. *)
Definition widget : @AddProductData ExactQ :=
  Build_AddProductData (N := ExactQ) "Widget" None 100 10.

(** An item as the client submits it: product key, price, tax, quantity. *)
Definition item (id : Z) (price tax quantity : Q) : Item :=
  Build_InvoiceItem
    (Build_Product (N := ExactQ) id "Widget" None price tax) quantity.

(** One customer (key 1) and one product (key 1). *)
Definition shop : Store :=
  run email_pattern (AddProduct widget)
      (run email_pattern (AddCustomer alice) empty_db).

Definition first_sale : Cmd :=
  CreateInvoice "2024-05-01T10:00:00.000Z"
                (invoice_request 1 [item 1 100 10 2]).

(** The shop after a first invoice (key 1). *)
Definition shop_after_sale : Store := run email_pattern first_sale shop.

(** Two items, the second for a product the shop does not have. *)
Definition ghost_items : list Item := [item 1 100 10 2; item 99 5 0 1].

Definition first_header : Header :=
  Build_InvoiceRow (N := ExactQ) 1 1 "2024-05-01T10:00:00.000Z"
                   (totalAmount [item 1 100 10 2]).

(** A request whose one item has a negative price. *)
Definition refund : Cmd :=
  CreateInvoice "2024-05-03T12:00:00.000Z"
                (invoice_request 1 [item 1 (-5) 0 1]).

Definition carol : AddCustomerData :=
  {| ac_name := "Carol"; ac_phone := "555-0100"; ac_email := None;
     ac_address := None |}.

Definition bob : AddCustomerData :=
  {| ac_name := "Bob"; ac_phone := "555-0199"; ac_email := None;
     ac_address := None |}.

Definition aaron : AddCustomerData :=
  {| ac_name := "Aaron"; ac_phone := "555-0142"; ac_email := None;
     ac_address := None |}.

Definition second_sale : Cmd :=
  CreateInvoice "2024-06-11T16:30:00.000Z"
                (invoice_request 3 [item 1 100 10 1]).

(** Three customers, added as Alice, Bob, Aaron; two invoices, the later one
    Aaron's. *)
Definition market : Store :=
  run email_pattern second_sale
      (run email_pattern (AddCustomer aaron)
           (run email_pattern (AddCustomer bob) shop_after_sale)).

(** The shop after the sale, its product since renamed and repriced. *)
Definition repriced : Store :=
  {| customers := customers shop_after_sale;
     products := [Build_Product (N := ExactQ) 1 "Gadget" (Some "new") 999 28];
     invoices := invoices shop_after_sale;
     invoice_items := invoice_items shop_after_sale;
     seq_customers := seq_customers shop_after_sale;
     seq_products := seq_products shop_after_sale;
     seq_invoices := seq_invoices shop_after_sale;
     seq_invoice_items := seq_invoice_items shop_after_sale |}.

(** The same, its product row gone. *)
Definition orphaned : Store :=
  {| customers := customers shop_after_sale;
     products := [];
     invoices := invoices shop_after_sale;
     invoice_items := invoice_items shop_after_sale;
     seq_customers := seq_customers shop_after_sale;
     seq_products := seq_products shop_after_sale;
     seq_invoices := seq_invoices shop_after_sale;
     seq_invoice_items := seq_invoice_items shop_after_sale |}.

(** The same again, without the line item. *)
Definition emptied : Store :=
  {| customers := customers shop_after_sale;
     products := [];
     invoices := invoices shop_after_sale;
     invoice_items := [];
     seq_customers := seq_customers shop_after_sale;
     seq_products := seq_products shop_after_sale;
     seq_invoices := seq_invoices shop_after_sale;
     seq_invoice_items := seq_invoice_items shop_after_sale |}.

Lemma shop_reachable : reachable email_pattern shop.
Proof.
  unfold shop. apply reachable_run. apply reachable_run. apply reachable_empty.
Defined.

Lemma shop_after_sale_reachable : reachable email_pattern shop_after_sale.
Proof.
  unfold shop_after_sale. apply reachable_run. exact shop_reachable.
Defined.

(** The header of the first sale: total 100*2 + 100*2*(10/100) = 220. *)
Example first_sale_stored :
  map invoice_id (invoices shop_after_sale) = [1%Z] /\
  map ii_invoiceId (invoice_items shop_after_sale) = [1%Z] /\
  Forall (fun inv : Header => invoice_totalAmount inv == 220)
         (invoices shop_after_sale).
Proof.
  split; [reflexivity|]. split; [reflexivity|].
  vm_compute. constructor; [reflexivity | constructor].
Qed.

(** *** Atomicity (C1) *)

(** The second insert fails after the header and the first item went in:
    the failure is reported and the shop is as before. *)
Lemma createInvoice_atomic_witness :
  snd (fst (useCreateInvoiceAction "2024-05-02T09:00:00.000Z"
              (invoice_request 1 ghost_items) shop))
    = Returned not_saved /\
  fst (fst (useCreateInvoiceAction "2024-05-02T09:00:00.000Z"
              (invoice_request 1 ghost_items) shop))
    = shop.
Proof.
  apply (proj2 (createInvoice_atomic "2024-05-02T09:00:00.000Z"
                  (invoice_request 1 ghost_items) shop)
               1%Z ghost_items).
  - reflexivity.
  - vm_compute. reflexivity.
Defined.

(** *** The stored total (C2) *)

Lemma stored_total_is_sum_witness :
  (invoice_totalAmount first_header
   = rows_total (items_of shop_after_sale (invoice_id first_header)))
  /\
  (invoice_totalAmount first_header ==
   Qsum line_total (items_of shop_after_sale (invoice_id first_header)))
  /\
  (In (new_invoice shop 1 "2024-05-01T10:00:00.000Z" [item 1 100 10 2])
      (invoices shop_after_sale) /\
   totalAmount [item 1 100 10 2] ==
   Qsum line_total (items_of shop_after_sale (new_invoice_id shop))).
Proof.
  split; [|split].
  - apply (proj1 (stored_total_is_sum email_pattern) ExactQ shop_after_sale
                 shop_after_sale_reachable first_header).
    vm_compute. left. reflexivity.
  - apply (proj1 (proj2 (stored_total_is_sum email_pattern)) shop_after_sale
                 shop_after_sale_reachable first_header).
    vm_compute. left. reflexivity.
  - apply (proj2 (proj2 (stored_total_is_sum email_pattern)) shop
                 "2024-05-01T10:00:00.000Z" 1%Z [item 1 100 10 2]
                 shop_reachable).
    vm_compute. reflexivity.
Defined.

(** *** Negative totals (C5) *)

(** The create-invoice action accepts it and stores an invoice whose total
    is -5. *)
Lemma negative_total_stored :
  snd (fst (useCreateInvoiceAction "2024-05-03T12:00:00.000Z"
              (invoice_request 1 [item 1 (-5) 0 1]) shop))
    = Returned saved /\
  reachable email_pattern (run email_pattern refund shop) /\
  exists inv : Header,
    In inv (invoices (run email_pattern refund shop)) /\
    invoice_totalAmount inv == -5 /\ invoice_totalAmount inv < 0.
Proof.
  split; [vm_compute; reflexivity|].
  split; [apply reachable_run; exact shop_reachable|].
  exists (new_invoice shop 1 "2024-05-03T12:00:00.000Z" [item 1 (-5) 0 1]).
  split; [vm_compute; left; reflexivity|].
  split; vm_compute; reflexivity.
Defined.

(** *** Empty invoices and non-positive quantities (C6) *)



(** *** A phone number already in use (C7) *)

(** Carol gives Alice's phone number: the action ends with the store's
    uniqueness error thrown, not with a returned result. *)
Lemma duplicate_phone_is_thrown :
  useAddCustomerAction email_pattern carol shop
    = (shop, Threw (SqliteErr SQLITE_CONSTRAINT_UNIQUE)).
Proof.
  vm_compute. reflexivity.
Defined.

Lemma addCustomer_phone_in_use_witness :
  useAddCustomerAction email_pattern carol shop
    = (shop, Threw (SqliteErr SQLITE_CONSTRAINT_UNIQUE)).
Proof.
  apply (addCustomer_phone_in_use email_pattern carol shop).
  - vm_compute. reflexivity.
  - vm_compute. reflexivity.
Defined.

(** *** The answer of the create-invoice action (C8) *)

(** The same request on two stores creates invoices 1 and 2, and is
    answered with the same object: the answer does not tell the key. *)
Lemma same_answer_for_different_invoices :
  snd (fst (useCreateInvoiceAction "2024-05-05T08:00:00.000Z"
              (invoice_request 1 [item 1 100 10 1]) shop))
    = Returned {| success := true; error := None |} /\
  snd (fst (useCreateInvoiceAction "2024-05-05T08:00:00.000Z"
              (invoice_request 1 [item 1 100 10 1]) shop_after_sale))
    = Returned {| success := true; error := None |} /\
  map invoice_id
      (invoices (fst (fst (useCreateInvoiceAction "2024-05-05T08:00:00.000Z"
                             (invoice_request 1 [item 1 100 10 1]) shop))))
    = [1%Z] /\
  map invoice_id
      (invoices (fst (fst (useCreateInvoiceAction "2024-05-05T08:00:00.000Z"
                             (invoice_request 1 [item 1 100 10 1])
                             shop_after_sale))))
    = [1%Z; 2%Z].
Proof.
  repeat split; vm_compute; reflexivity.
Defined.

Lemma createInvoice_result_witness :
  (not_saved = saved /\
   snd (useCreateInvoiceAction "2024-05-02T09:00:00.000Z"
          (invoice_request 1 ghost_items) shop) = [])
  \/
  (not_saved = not_saved /\
   fst (fst (useCreateInvoiceAction "2024-05-02T09:00:00.000Z"
               (invoice_request 1 ghost_items) shop)) = shop /\
   exists cause,
     snd (useCreateInvoiceAction "2024-05-02T09:00:00.000Z"
            (invoice_request 1 ghost_items) shop)
     = [("Invoice creation failed:", cause)]).
Proof.
  apply (@createInvoice_result ExactQ "2024-05-02T09:00:00.000Z"
           (invoice_request 1 ghost_items) shop not_saved).
  vm_compute. reflexivity.
Defined.

(** *** The loaders (C9) *)

Lemma market_reachable : reachable email_pattern market.
Proof.
  unfold market. do 3 apply reachable_run. exact shop_after_sale_reachable.
Defined.

Example market_listed :
  map customer_name (useCustomersLoader market) = ["Aaron"; "Alice"; "Bob"] /\
  map (fun inv : @Invoice ExactQ => (inv_id inv, inv_customerName inv))
      (useInvoicesLoader market)
  = [(2%Z, "Aaron"); (1%Z, "Alice")].
Proof.
  split; vm_compute; reflexivity.
Qed.

Lemma loaders_ordered_witness :
  Permutation (map inv_id (useInvoicesLoader market))
              (map invoice_id (invoices market)).
Proof.
  apply (proj2 (proj2 (proj2 (proj2 (loaders_ordered email_pattern market))))).
  exact market_reachable.
Defined.

(** *** The history of an invoice (C10) *)

Example history_after_repricing :
  map hi_name (itemsStmt shop_after_sale 1) = ["Widget"] /\
  map hi_name (itemsStmt repriced 1) = ["Gadget"] /\
  map snapshot (itemsStmt repriced 1) = [(2, 100, 10)] /\
  itemsStmt orphaned 1 = [].
Proof.
  repeat split; vm_compute; reflexivity.
Qed.

Lemma history_items_join_witness :
  map snapshot (itemsStmt repriced 1) = map snapshot (itemsStmt shop_after_sale 1)
  /\
  itemsStmt orphaned 1 = itemsStmt emptied 1.
Proof.
  split.
  - apply (proj1 (proj2 (history_items_join shop_after_sale 1)) repriced).
    + reflexivity.
    + vm_compute. reflexivity.
  - apply (proj2 (proj2 (history_items_join orphaned 1)) emptied []
                 (Build_InvoiceItemRow (N := ExactQ) 1 1 1 2 100 10) []).
    + vm_compute. reflexivity.
    + reflexivity.
    + reflexivity.
    + reflexivity.
Defined.

End Shop.

(** ** Binary64: the totals as JavaScript computes them *)

Module Binary.

Local Open Scope float_scope.

(** An item of product 1: price, tax, quantity. *)
Definition item64 (price tax quantity : float) : @InvoiceItem Binary64 :=
  Build_InvoiceItem (Build_Product (N := Binary64) 1 "Sweet" None price tax)
                    quantity.

(** One unit at 0.50 with 5% tax and two units at 0.50 with 18% tax; every
    number here is a binary64 value as written. *)
Definition half_price_items : list (@InvoiceItem Binary64) :=
  [item64 0.5 5 1; item64 0.5 18 2].

(** [quantity * priceAtSale * (1 + taxAtSale/100)] of a stored line item,
    on the rationals its three numbers are. *)
Definition exact_line_total (r : @InvoiceItemRow Binary64) : option Q :=
  match exact_value (ii_quantity r), exact_value (ii_priceAtSale r),
        exact_value (ii_taxAtSale r) with
  | Some q, Some p, Some t => Some (q * p * (1 + t / 100))%Q
  | _, _, _ => None
  end.

(** The sum of [exact_line_total] over rows. *)
Definition exact_sum (rows : list (@InvoiceItemRow Binary64)) : option Q :=
  fold_right
    (fun r acc =>
       match exact_line_total r, acc with
       | Some a, Some b => Some (a + b)%Q
       | _, _ => None
       end)
    (Some 0%Q) rows.

(** The same sum computed in binary64, left to right. *)
Definition binary_sum (rows : list (@InvoiceItemRow Binary64)) : float :=
  fold_left
    (fun (acc : float) (r : @InvoiceItemRow Binary64) =>
       acc + ii_quantity r * ii_priceAtSale r * (1 + ii_taxAtSale r / 100))
    rows 0.

(** A shop with one customer and one product, and the sale of
    [half_price_items] in it. *)
Definition sweet_shop : @Database Binary64 :=
  run Shop.email_pattern
      (AddProduct (Build_AddProductData (N := Binary64) "Sweet" None 0.5 5))
      (run Shop.email_pattern (AddCustomer Shop.alice) empty_db).

Definition sweet_sale : @Database Binary64 :=
  run Shop.email_pattern
      (CreateInvoice "2024-05-06T10:00:00.000Z"
                     (invoice_request 1 half_price_items))
      sweet_shop.

(** On the example of the specification both computations give 270. *)
Example binary_totals_of_the_example :
  totalAmount [item64 100 10 2; item64 50 0 1] = 270 /\
  previewTotal [item64 100 10 2; item64 50 0 1] = 270.
Proof.
  split; vm_compute; reflexivity.
Qed.

(** On [half_price_items] the action's fold and the preview's two folds add
    in a different order and round differently: the stored total prints as
    1.70 and the preview as 1.71. *)
Lemma preview_differs_from_stored :
  totalAmount half_price_items <> previewTotal half_price_items /\
  PrimFloat.eqb (totalAmount half_price_items) (previewTotal half_price_items)
    = false /\
  toFixed2 (totalAmount half_price_items) = Some 170%Z /\
  toFixed2 (previewTotal half_price_items) = Some 171%Z.
Proof.
  assert (toFixed2 (totalAmount half_price_items) = Some 170%Z) as Hs
    by (vm_compute; reflexivity).
  assert (toFixed2 (previewTotal half_price_items) = Some 171%Z) as Hp
    by (vm_compute; reflexivity).
  split; [|split; [vm_compute; reflexivity | split; assumption]].
  intro H. rewrite H, Hp in Hs. discriminate.
Defined.

(** The invoice of the sale is stored with a total that is not the sum of
    [quantity * priceAtSale * (1 + taxAtSale/100)] over its two stored line
    items: the sum is 1.705, which prints as 1.71 (computed in binary64 it
    is the value next above 1.705), and the stored total is the binary64
    value below 1.705, which prints as 1.70. *)
Lemma stored_total_is_rounded :
  reachable Shop.email_pattern sweet_sale /\
  map invoice_id (invoices sweet_sale) = [1%Z] /\
  option_map Qred (exact_sum (items_of sweet_sale 1)) = Some (341 # 200)%Q /\
  map (fun inv : @InvoiceRow Binary64 =>
         PrimFloat.eqb (invoice_totalAmount inv)
                       (binary_sum (items_of sweet_sale 1)))
      (invoices sweet_sale)
    = [false] /\
  toFixed2 (binary_sum (items_of sweet_sale 1)) = Some 171%Z /\
  map (fun inv : @InvoiceRow Binary64 =>
         match exact_value (invoice_totalAmount inv) with
         | Some v => Some (Qeq_bool v (341 # 200), Qle_bool (341 # 200) v)
         | None => None
         end)
      (invoices sweet_sale)
    = [Some (false, false)] /\
  map (fun inv : @InvoiceRow Binary64 => toFixed2 (invoice_totalAmount inv))
      (invoices sweet_sale)
    = [Some 170%Z] /\
  hundredths (341 # 200) = 171%Z.
Proof.
  split.
  { unfold sweet_sale, sweet_shop. do 3 apply reachable_run.
    apply reachable_empty. }
  repeat split; vm_compute; reflexivity.
Defined.

(** *** The sign of a stored total (C5) *)

(** The sale of [half_price_items] in binary64: the items are not negative,
    and neither is the total the action stores. *)
Lemma stored_total_not_negative_witness :
  (invoices (fst (fst (useCreateInvoiceAction "2024-05-06T10:00:00.000Z"
                         (invoice_request 1 half_price_items) sweet_shop)))
     = (invoices sweet_shop
        ++ [new_invoice sweet_shop 1 "2024-05-06T10:00:00.000Z"
                        half_price_items])%list /\
   invoice_totalAmount
     (new_invoice sweet_shop 1 "2024-05-06T10:00:00.000Z" half_price_items)
     = totalAmount half_price_items /\
   (Forall item_not_negative half_price_items ->
    not_negative (totalAmount half_price_items)))
  /\
  (forall inv : @InvoiceRow Binary64,
     In inv (invoices sweet_sale) -> not_negative (invoice_totalAmount inv)).
Proof.
  split.
  - apply (proj1 (@stored_total_not_negative Binary64 Shop.email_pattern
                    binary64_sign_rules)
                 sweet_shop "2024-05-06T10:00:00.000Z"%string 1%Z
                 half_price_items).
    vm_compute. reflexivity.
  - apply (proj2 (@stored_total_not_negative Binary64 Shop.email_pattern
                    binary64_sign_rules)
                 [AddCustomer Shop.alice;
                  AddProduct
                    (Build_AddProductData (N := Binary64) "Sweet" None 0.5 5);
                  CreateInvoice "2024-05-06T10:00:00.000Z"
                                (invoice_request 1 half_price_items)]).
    repeat constructor; vm_compute; reflexivity.
Defined.

(** One item of ten units at 1e308 (the binary64 value that literal
    denotes), tax 0. *)
Definition overflowing_items : list (@InvoiceItem Binary64) :=
  [item64 0x1.1ccf385ebc8ap+1023 0 10].

(** A total can be NaN when no submitted number is: a price of 1e308 times
    a quantity of 10 is [Infinity], and [Infinity] times a tax of [0 / 100]
    is NaN. The header insert fails and the shop is as before. *)
Example overflow_total_is_refused :
  forallb item_storable overflowing_items = true /\
  Forall item_not_negative overflowing_items /\
  PrimFloat.is_nan (totalAmount overflowing_items) = true /\
  storable overflowing_items = false /\
  useCreateInvoiceAction "2024-05-07T09:00:00.000Z"
    (invoice_request 1 overflowing_items) sweet_shop
  = (sweet_shop, Returned not_saved,
     [("Invoice creation failed:"%string, SQLITE_CONSTRAINT_NOTNULL)]).
Proof.
  split; [vm_compute; reflexivity|].
  split; [repeat constructor; vm_compute; reflexivity|].
  repeat split; vm_compute; reflexivity.
Qed.

(** A total that is NaN is not stored: an infinite price times a quantity
    of zero makes the header insert fail, and the shop is as before. *)
Example nan_total_is_refused :
  useCreateInvoiceAction "2024-05-07T10:00:00.000Z"
    (invoice_request 1 [item64 infinity 0 0]) sweet_shop
  = (sweet_shop, Returned not_saved,
     [("Invoice creation failed:"%string, SQLITE_CONSTRAINT_NOTNULL)]).
Proof.
  vm_compute. reflexivity.
Qed.

End Binary.

(** ** A tour: the store over time and the page, on concrete runs *)

Module Tour.

Import Exact.
Import Till.
#[local] Existing Instance ExactQ.
#[local] Existing Instance ExactQ_page.
Local Open Scope Q_scope.
Local Open Scope string_scope.

(** The rows of Alice and of the widget in the shop. *)
Definition alice_row : Customer :=
  {| customer_id := 1; customer_name := "Alice"; customer_phone := "555-0100";
     customer_email := None; customer_address := None |}.

Definition widget_row : @Product ExactQ :=
  Build_Product (N := ExactQ) 1 "Widget" None 100 10.

(** The widget as a stale page may still hold it, at an older price. *)
Definition old_widget_row : @Product ExactQ :=
  Build_Product (N := ExactQ) 1 "Widget" None 80 10.

(** The invoice of the first sale as the history lists it. *)
Definition first_listed : Listed :=
  loaded_invoice Shop.shop_after_sale Shop.first_header alice_row.

(** The page after Alice was selected and the widget added twice. *)
Definition sale_page : Page :=
  page_step (P := ExactQ_page) (AddToInvoice widget_row)
    (page_step (P := ExactQ_page) (AddToInvoice widget_row)
       (page_step (P := ExactQ_page) (SelectCustomer alice_row)
          initial_page)).

(** A product with a fractional price, in binary64: name, description,
    price, tax. *)
Definition sweet : @AddProductData Binary64 :=
  Build_AddProductData (N := Binary64) "Sweet" None 0.5%float 5%float.

(** Zod's [min(0)] lets no NaN through, in exact arithmetic and in
    binary64. *)
Lemma exact_min0_excludes_nan : @min0_excludes_nan ExactQ.
Proof.
  intros x _. reflexivity.
Qed.

Lemma binary64_min0_excludes_nan : @min0_excludes_nan Binary64.
Proof.
  intros x H. simpl in *. unfold PrimFloat.is_nan.
  rewrite FloatAxioms.leb_spec in H. rewrite FloatAxioms.eqb_spec.
  destruct (Prim2SF x) as [s | s | | s m e].
  - reflexivity.
  - destruct s; reflexivity.
  - unfold SFleb, SFcompare in H. destruct (Prim2SF PrimFloat.zero); discriminate.
  - unfold SFeqb, SFcompare. simpl.
    rewrite Z.compare_refl, Pos.compare_refl.
    destruct s; simpl; reflexivity.
Qed.

Lemma sale_session : session Shop.email_pattern Shop.shop sale_page.
Proof.
  unfold sale_page.
  apply session_event; [apply session_event; [apply session_event|]|].
  - unfold Shop.shop. apply session_command. apply session_command.
    apply session_start.
  - vm_compute. left. reflexivity.
  - vm_compute. left. reflexivity.
  - vm_compute. left. reflexivity.
Defined.

Example sale_page_items :
  state_items (invoiceState sale_page) = [Shop.item 1 100 10 (1 + 1)] /\
  map shown (state_items (invoiceState sale_page))
  = [100 * (1 + 1) + 100 * (1 + 1) * (10 / 100)].
Proof.
  split; reflexivity.
Qed.

Lemma keys_increase_witness :
  well_keyed Shop.market /\
  NoDup (map customer_id (customers Shop.market)) /\
  NoDup (map product_id (products Shop.market)) /\
  NoDup (map invoice_id (invoices Shop.market)) /\
  NoDup (map ii_id (invoice_items Shop.market)).
Proof.
  apply (@keys_increase ExactQ Shop.email_pattern Shop.market
           Shop.market_reachable).
Defined.

Lemma reachable_referential_witness :
  referential Shop.market /\
  NoDup (map customer_phone (customers Shop.market)).
Proof.
  apply (@reachable_referential ExactQ Shop.email_pattern Shop.market
           Shop.market_reachable).
Defined.

Lemma added_customer_is_found_witness :
  exists db',
    useAddCustomerAction Shop.email_pattern Shop.bob Shop.shop
      = (db', Returned tt) /\
    customers db' = (customers Shop.shop ++ [new_customer Shop.shop Shop.bob])%list /\
    products db' = products Shop.shop /\
    invoices db' = invoices Shop.shop /\
    invoice_items db' = invoice_items Shop.shop /\
    findCustomer (useCustomersLoader db') (ac_phone Shop.bob)
      = found_customer (new_customer Shop.shop Shop.bob).
Proof.
  apply (@added_customer_is_found ExactQ Shop.email_pattern Shop.bob
           Shop.shop).
  - vm_compute. reflexivity.
  - vm_compute. reflexivity.
Defined.

Lemma find_by_phone_witness :
  match findCustomer (useCustomersLoader Shop.market) "555-0199" with
  | found_customer c =>
      In c (customers Shop.market) /\ customer_phone c = "555-0199" /\
      forall c', In c' (customers Shop.market) ->
                 customer_phone c' = "555-0199" -> c' = c
  | not_found =>
      forall c, In c (customers Shop.market) -> customer_phone c <> "555-0199"
  | nothing_searched => False
  end.
Proof.
  apply (@find_by_phone ExactQ Shop.email_pattern Shop.market "555-0199"
           Shop.market_reachable).
Defined.

Lemma addProduct_never_throws_witness :
  (validAddProduct sweet = true /\
   exists db',
     useAddProductAction sweet empty_db = (db', Returned tt) /\
     products db' = (products empty_db ++ [new_product empty_db sweet])%list /\
     customers db' = customers empty_db /\
     invoices db' = invoices empty_db /\
     invoice_items db' = invoice_items empty_db /\
     In (new_product empty_db sweet) (useProductsLoader db'))
  \/
  (validAddProduct sweet = false /\
   useAddProductAction sweet empty_db = (empty_db, ValidationFailed)).
Proof.
  apply (@addProduct_never_throws Binary64 sweet empty_db).
  exact binary64_min0_excludes_nan.
Defined.

Lemma history_row_per_item_witness :
  Forall2
    (fun h ii =>
       exists p, In p (products Shop.shop_after_sale) /\
                 product_id p = ii_productId ii /\ h = history_item p ii)
    (itemsStmt Shop.shop_after_sale 1) (items_of Shop.shop_after_sale 1) /\
  map snapshot (itemsStmt Shop.shop_after_sale 1)
  = map (fun ii : Row => (ii_quantity ii, ii_priceAtSale ii, ii_taxAtSale ii))
        (items_of Shop.shop_after_sale 1).
Proof.
  apply (@history_row_per_item ExactQ Shop.email_pattern
           Shop.shop_after_sale 1 Shop.shop_after_sale_reachable).
Defined.

Lemma history_is_permanent_witness :
  In first_listed
     (useInvoicesLoader
        (run Shop.email_pattern (AddProduct Shop.widget) Shop.shop_after_sale)).
Proof.
  apply (@history_is_permanent ExactQ Shop.email_pattern
           (AddProduct Shop.widget) Shop.shop_after_sale first_listed
           Shop.shop_after_sale_reachable).
  vm_compute. left. reflexivity.
Defined.

Lemma add_item_lookup_witness :
  item_with 2 (add_item (P := ExactQ_page) widget_row [Shop.item 2 5 0 3])
  = item_with 2 [Shop.item 2 5 0 3].
Proof.
  apply (proj2 (@add_item_lookup ExactQ ExactQ_page widget_row
                  [Shop.item 2 5 0 3]) 2%Z).
  vm_compute. discriminate.
Defined.

Lemma edit_and_remove_lookup_witness :
  item_with 2 (set_quantity 1 (-3) [Shop.item 1 100 10 2; Shop.item 2 5 0 3])
  = item_with 2 [Shop.item 1 100 10 2; Shop.item 2 5 0 3] /\
  item_with 2 (remove_item 1 [Shop.item 1 100 10 2; Shop.item 2 5 0 3])
  = item_with 2 [Shop.item 1 100 10 2; Shop.item 2 5 0 3].
Proof.
  split.
  - apply (proj2 (proj2 (proj1 (@edit_and_remove_lookup ExactQ 1%Z (-3)%Q
                                  [Shop.item 1 100 10 2; Shop.item 2 5 0 3])))
                 2%Z).
    vm_compute. discriminate.
  - apply (proj2 (proj2 (@edit_and_remove_lookup ExactQ 1%Z (-3)%Q
                           [Shop.item 1 100 10 2; Shop.item 2 5 0 3]))
                 2%Z).
    vm_compute. discriminate.
Defined.

Lemma page_sends_known_rows_witness :
  exists customer items,
    invoice_request 1 [Shop.item 1 100 10 (1 + 1)]
      = invoice_request (customer_id customer) items /\
    items <> [] /\
    In customer (customers Shop.shop) /\
    (forall item, In item items -> In (item_product item) (products Shop.shop)) /\
    NoDup (map item_id items) /\
    let result :=
      useCreateInvoiceAction "2024-05-08T10:00:00.000Z"
        (invoice_request 1 [Shop.item 1 100 10 (1 + 1)]) Shop.shop in
    (storable items = true ->
     snd (fst result) = Returned saved /\
     invoices (fst (fst result))
     = (invoices Shop.shop
        ++ [new_invoice Shop.shop (customer_id customer)
                        "2024-05-08T10:00:00.000Z" items])%list) /\
    (storable items = false ->
     snd (fst result) = Returned not_saved /\ fst (fst result) = Shop.shop).
Proof.
  apply (@page_sends_known_rows ExactQ ExactQ_page Shop.email_pattern
           Shop.shop sale_page
           (invoice_request 1 [Shop.item 1 100 10 (1 + 1)])
           "2024-05-08T10:00:00.000Z" sale_session).
  reflexivity.
Defined.

Lemma history_totals_add_up_witness :
  inv_totalAmount first_listed == Qsum shown_in_history (inv_items first_listed).
Proof.
  apply (@history_totals_add_up Shop.email_pattern Shop.shop_after_sale
           first_listed Shop.shop_after_sale_reachable).
  vm_compute. left. reflexivity.
Defined.

(** A shop whose one product costs 1e308, and the page after Alice was
    selected, the product added and its quantity set to 10: every number of
    the request is finite, and its total is NaN. *)
Definition dear_sweet : @Product Binary64 :=
  Build_Product (N := Binary64) 1 "Sweet" None
                0x1.1ccf385ebc8ap+1023%float 0%float.

Definition dear_shop : @Database Binary64 :=
  run Shop.email_pattern
      (AddProduct (Build_AddProductData (N := Binary64) "Sweet" None
                     0x1.1ccf385ebc8ap+1023%float 0%float))
      (run Shop.email_pattern (AddCustomer Shop.alice) empty_db).

Definition dear_page : @PageState Binary64 :=
  page_step (P := Binary64_page) (@InputQuantity Binary64 1%Z 10%float)
    (page_step (P := Binary64_page) (AddToInvoice dear_sweet)
       (page_step (P := Binary64_page) (SelectCustomer alice_row)
          initial_page)).

Lemma dear_session :
  session (P := Binary64_page) Shop.email_pattern dear_shop dear_page.
Proof.
  unfold dear_page.
  apply session_event; [apply session_event; [apply session_event|]|].
  - unfold dear_shop. apply session_command. apply session_command.
    apply session_start.
  - vm_compute. left. reflexivity.
  - vm_compute. left. reflexivity.
  - exact I.
Defined.

(** The form sends the request, the action refuses it, and the page is as
    it was. *)
Example dear_page_is_refused :
  saveInvoice (P := Binary64_page) (invoiceState dear_page)
    = Sends (invoice_request 1 Binary.overflowing_items) /\
  snd (fst (useCreateInvoiceAction "2024-05-09T10:00:00.000Z"
              (invoice_request 1 Binary.overflowing_items) dear_shop))
    = Returned not_saved.
Proof.
  split; vm_compute; reflexivity.
Qed.

Lemma page_invoice_settles_witness :
  let result :=
    useCreateInvoiceAction "2024-05-09T10:00:00.000Z"
      (invoice_request 1 Binary.overflowing_items) dear_shop in
  let page' :=
    page_step (P := Binary64_page) (InvoiceSettled (snd (fst result)))
              dear_page in
  (snd (fst result) = Returned saved \/
   snd (fst result) = Returned not_saved) /\
  (snd (fst result) = Returned saved ->
   (exists header,
      invoices (fst (fst result)) = (invoices dear_shop ++ [header])%list /\
      invoice_totalAmount header
      = totalAmount (state_items (invoiceState dear_page))) /\
   invoiceView page' = history_view /\
   activeTab page' = activeTab dear_page /\
   state_customer (invoiceState page') = None /\
   state_items (invoiceState page') = []) /\
  (snd (fst result) = Returned not_saved ->
   fst (fst result) = dear_shop /\ page' = dear_page) /\
  session (P := Binary64_page) Shop.email_pattern (fst (fst result)) page'.
Proof.
  apply (@page_invoice_settles Binary64 Binary64_page Shop.email_pattern
           dear_shop dear_page
           (invoice_request 1 Binary.overflowing_items)
           "2024-05-09T10:00:00.000Z" dear_session).
  vm_compute. reflexivity.
Defined.

Lemma page_total_nonneg_witness :
  exists items : list Item,
    ci_itemsJSON (invoice_request 1 [Shop.item 1 100 10 (1 + 1)])
      = ItemsArray items /\
    (forall item, In item items ->
       0 <= item_price item /\ 0 <= item_tax item) /\
    ((forall item, In item items -> 0 <= item_quantity item) ->
     0 <= totalAmount items).
Proof.
  apply (@page_total_nonneg Shop.email_pattern Shop.shop sale_page
           (invoice_request 1 [Shop.item 1 100 10 (1 + 1)]) sale_session).
  reflexivity.
Defined.

End Tour.
